(** * GIFify: the transcoding server ([server.js]) as a shallow embedding

    The Express server of the repository accepts an uploaded video and drives
    ffmpeg to produce a thumbnail or a GIF.  This file embeds the parts of
    [server.js] that decide its observable behaviour: the filename sanitizer,
    the upload filter, the scratch-file clean-up, the two request handlers and
    the global error handler.

    Conventions of the embedding:
    - a JavaScript string is a [string]; one character stands for one UTF-16
      code unit (the regular expression of the sanitizer has no [u] flag, so it
      works code unit by code unit);
    - [Date.now()], the behaviour of the spawned ffmpeg processes, the outcome
      of [fs.promises.unlink] and of [res.sendFile] belong to the environment
      and are read from an [Env] record;
    - the handlers run in a state-and-exception monad over a [World]: the files
      of the scratch directory, the server log and the processes launched so
      far, in launch order. *)

From Stdlib Require Import Ascii NArith ZArith Lia DecimalString DecimalN.
From stdpp Require Import base option list strings gmap.

Local Open Scope N_scope.
#[local] Set Warnings "-clear-no-such-hyp".

(** ** Strings, as the JavaScript built-ins use them *)

Module Str.

(** The double quote, which the command lines of the server contain. *)
Definition dquote : string := String (ascii_of_N 34) EmptyString.

(** The line feed of [`Command failed: ${cmd}\n${stderr}`]. *)
Definition newline : string := String (ascii_of_N 10) EmptyString.

Fixpoint map (f : ascii -> ascii) (s : string) : string :=
  match s with
  | EmptyString => EmptyString
  | String c r => String (f c) (map f r)
  end.

Fixpoint starts_with (p s : string) : bool :=
  match p, s with
  | EmptyString, _ => true
  | String _ _, EmptyString => false
  | String a p', String b s' => if Ascii.eqb a b then starts_with p' s' else false
  end.

(** [String.prototype.includes]: [needle] occurs somewhere in [s]. *)
Fixpoint includes (s needle : string) : bool :=
  starts_with needle s ||
  match s with
  | EmptyString => false
  | String _ r => includes r needle
  end.

(** [Array.prototype.includes] on an array of strings. *)
Definition mem (x : string) (l : list string) : bool :=
  existsb (String.eqb x) l.

(** [Array.prototype.join]. *)
Definition join (sep : string) (l : list string) : string :=
  String.concat sep l.

(** A number in a template literal: a non-negative integer prints in decimal. *)
Definition of_N (n : N) : string :=
  NilEmpty.string_of_uint (N.to_uint n).

(** [s] without its ending [suffix], when it ends with it. *)
Fixpoint strip_suffix (suffix s : string) : option string :=
  if String.eqb s suffix then Some EmptyString
  else match s with
       | EmptyString => None
       | String c r => option_map (String c) (strip_suffix suffix r)
       end.

(** Every character of [s] passes the test [f]. *)
Fixpoint all (f : ascii -> bool) (s : string) : bool :=
  match s with
  | EmptyString => true
  | String c r => f c && all f r
  end.

Definition is_digit (c : ascii) : bool :=
  let n := N_of_ascii c in (48 <=? n) && (n <=? 57).

(** The longest prefix of decimal digits. *)
Fixpoint leading_digits (s : string) : string :=
  match s with
  | EmptyString => EmptyString
  | String c r => if is_digit c then String c (leading_digits r) else EmptyString
  end.

End Str.

(** ** Node's [path] module on a single path component

    Every name the server passes to [path.basename], [path.extname] and as the
    last argument of [path.join] is one component: it holds no [/] (see
    [sanitizeFilename]) and is neither [.] nor [..].  On such names the POSIX
    implementations of Node reduce to the functions below. *)

Module Path.

(** The part of [s] from its last dot on, if [s] has a dot. *)
Fixpoint from_last_dot (s : string) : option string :=
  match s with
  | EmptyString => None
  | String c r =>
      match from_last_dot r with
      | Some e => Some e
      | None => if Ascii.eqb c "." then Some s else None
      end
  end.

(** [path.extname]: empty when there is no dot, when the only dot is the first
    character, and for the name [..]. *)
Definition extname (name : string) : string :=
  match from_last_dot name with
  | None => EmptyString
  | Some e =>
      if String.eqb e name then EmptyString
      else if String.eqb name ".." then EmptyString
      else e
  end.

(** [path.basename(name, suffix)]: the suffix is removed when it is not empty,
    not longer than the name, not the whole name, and the name ends with it. *)
Definition basename (name suffix : string) : string :=
  if (String.length suffix =? 0)%nat then name
  else if (String.length name <? String.length suffix)%nat then name
  else if String.eqb suffix name then EmptyString
  else match Str.strip_suffix suffix name with
       | Some b => b
       | None => name
       end.

(** [path.join(dir, name)] for a normalised [dir] and a single component. *)
Definition join (dir name : string) : string :=
  dir +:+ "/" +:+ name.

End Path.

(** ** Configuration ([CONFIG]) *)

Record Preset := { fps : N; scale : N; colors : N }.

Definition MAX_FILE_SIZE : N := 100 * 1024 * 1024.
Definition FFMPEG_TIMEOUT : N := 120000.

Definition ALLOWED_MIME_TYPES : list string :=
  [ "video/mp4"; "video/quicktime"; "video/x-msvideo";
    "video/x-matroska"; "video/webm"; "video/mpeg" ].

(** The own properties of [CONFIG.QUALITY_PRESETS], in insertion order. *)
Definition QUALITY_PRESETS : list (string * Preset) :=
  [ ("low",    {| fps := 10; scale := 320; colors := 128 |});
    ("medium", {| fps := 15; scale := 480; colors := 256 |});
    ("high",   {| fps := 20; scale := 640; colors := 256 |}) ].

(** [CONFIG.QUALITY_PRESETS] is an object literal, so a property read that
    misses the own properties goes on to [Object.prototype].  These are the
    property names of [Object.prototype] in the Node 18 of the Dockerfile; each
    holds a function, or an object for [__proto__]: all of them truthy. *)
Definition Object_prototype_names : list string :=
  [ "constructor"; "__defineGetter__"; "__defineSetter__"; "hasOwnProperty";
    "__lookupGetter__"; "__lookupSetter__"; "isPrototypeOf";
    "propertyIsEnumerable"; "toString"; "valueOf"; "__proto__";
    "toLocaleString" ].

(** The value of [CONFIG.QUALITY_PRESETS[key]]. *)
Inductive PropValue :=
  | PresetValue (p : Preset)
  | InheritedValue (name : string)
  | UndefinedValue.

Fixpoint own_property (props : list (string * Preset)) (key : string) : option Preset :=
  match props with
  | [] => None
  | (k, p) :: rest => if String.eqb k key then Some p else own_property rest key
  end.

Definition get_preset (key : string) : PropValue :=
  match own_property QUALITY_PRESETS key with
  | Some p => PresetValue p
  | None =>
      if Str.mem key Object_prototype_names then InheritedValue key
      else UndefinedValue
  end.

Definition truthy (v : PropValue) : bool :=
  match v with
  | UndefinedValue => false
  | _ => true
  end.

(** [preset.fps] and the like: a function or [Object.prototype] has no such
    property, the read gives [undefined]. *)
Definition field (f : Preset -> N) (v : PropValue) : option N :=
  match v with
  | PresetValue p => Some (f p)
  | _ => None
  end.

(** [`${preset.fps}`]. *)
Definition interpolate (v : option N) : string :=
  match v with
  | Some n => Str.of_N n
  | None => "undefined"
  end.

(** [Object.keys(CONFIG.QUALITY_PRESETS)]. *)
Definition Object_keys (props : list (string * Preset)) : list string :=
  List.map fst props.

(** ** The filename sanitizer *)

(** The complement of the class [[^a-zA-Z0-9._-]]. *)
Definition in_class (c : ascii) : bool :=
  let n := N_of_ascii c in
  ((97 <=? n) && (n <=? 122)) || ((65 <=? n) && (n <=? 90)) ||
  ((48 <=? n) && (n <=? 57)) || (n =? 46) || (n =? 95) || (n =? 45).

Definition placeholder : ascii := "_".

(** What the replacement does to one character. *)
Definition sanitize_char (c : ascii) : ascii :=
  if in_class c then c else placeholder.

(** [filename.replace(/[^a-zA-Z0-9._-]/g, '_')]. *)
Definition sanitizeFilename (filename : string) : string :=
  Str.map sanitize_char filename.

(** ** Errors, log records and responses *)

(** [error instanceof multer.MulterError], with the error's [code]. *)
Inductive ErrorClass :=
  | PlainError
  | MulterError (code : string).

Record JsError := {
  error_class : ErrorClass;
  message : string;
  stack : string
}.

(** [new Error(msg)].  V8 fills [stack] with the header and the call frames;
    the frames are kept abstract. *)
Definition new_Error (msg : string) : JsError :=
  {| error_class := PlainError;
     message := msg;
     stack := "Error: " +:+ msg +:+ Str.newline +:+ "    at <frames>" |}.

Definition new_MulterError (code msg : string) : JsError :=
  {| error_class := MulterError code;
     message := msg;
     stack := "MulterError: " +:+ msg +:+ Str.newline +:+ "    at <frames>" |}.

Inductive Json :=
  | JNull
  | JNum (n : N)
  | JStr (s : string)
  | JArr (items : list string).

(** One line written by [logger]; the [timestamp] field is left out. *)
Record LogEntry := {
  level : string;
  log_message : string;
  log_error : option string;
  log_stack : option string;
  meta : list (string * Json)
}.

Inductive Response :=
  | JsonResponse (status : N) (body : list (string * Json))
  | FileResponse (path : string)
  | NoResponse.

Definition status_of (r : Response) : option N :=
  match r with
  | JsonResponse s _ => Some s
  | FileResponse _ => Some 200
  | NoResponse => None
  end.

(** The strings of a response body, where a leak would show. *)
Definition json_strings (j : Json) : list string :=
  match j with
  | JStr s => [s]
  | JArr l => l
  | _ => []
  end.

Definition body_strings (r : Response) : list string :=
  match r with
  | JsonResponse _ body => flat_map (fun kv => json_strings (snd kv)) body
  | _ => []
  end.

(** ** The world and the environment *)

Record World := {
  files : gset string;
  logs : list LogEntry;
  launched : list (string * N)
}.

Definition init_world (fs : gset string) : World :=
  {| files := fs; logs := []; launched := [] |}.

(** How a child process started by [exec] ends, as [execWithTimeout] sees it. *)
Inductive ProcOutcome :=
  | Exit0 (stdout stderr : string)
  | ExitFail (code : Z) (stderr : string)
  | MaxBuffer (stream : string)
  | Overrun.

(** What the server reads from outside: [__dirname]; [Date.now()] in the
    [filename] callback of the storage and where the palette path is built;
    for a command and a timeout, how the process ends and which files it has
    written by then; which deletions [unlink] refuses; the error of a
    transfer by [res.sendFile], if any. *)
Record Env := {
  dirname : string;
  now_upload : N;
  now_palette : N;
  exec_behaviour : string -> N -> ProcOutcome * list string;
  unlink_fails : string -> bool;
  send_error : option string
}.

Definition with_unlink (env : Env) (u : string -> bool) : Env :=
  {| dirname := dirname env;
     now_upload := now_upload env;
     now_palette := now_palette env;
     exec_behaviour := exec_behaviour env;
     unlink_fails := u;
     send_error := send_error env |}.

(** [path.join(__dirname, 'uploads')]. *)
Definition uploadDir (env : Env) : string :=
  Path.join (dirname env) "uploads".

(** ** The monad of the handlers *)

Inductive Res (A : Type) :=
  | Val (a : A)
  | Throw (e : JsError).
Arguments Val {A} a.
Arguments Throw {A} e.

Definition M (A : Type) : Type := World -> Res A * World.

#[global] Instance M_ret : MRet M := fun A a w => (Val a, w).

#[global] Instance M_bind : MBind M := fun A B k m w =>
  match m w with
  | (Val a, w') => k a w'
  | (Throw e, w') => (Throw e, w')
  end.

Definition throw {A} (e : JsError) : M A := fun w => (Throw e, w).

(** [try { body } catch (error) { handler }]. *)
Definition try_catch {A} (body : M A) (handler : JsError -> M A) : M A :=
  fun w =>
    match body w with
    | (Val a, w') => (Val a, w')
    | (Throw e, w') => handler e w'
    end.

Definition write_log (e : LogEntry) : M unit := fun w =>
  (Val tt, {| files := files w; logs := logs w ++ [e]; launched := launched w |}).

Definition logger_info (msg : string) (m : list (string * Json)) : M unit :=
  write_log {| level := "info"; log_message := msg; log_error := None;
               log_stack := None; meta := m |}.

Definition logger_error (msg : string) (error : JsError) (m : list (string * Json)) : M unit :=
  write_log {| level := "error"; log_message := msg;
               log_error := Some (message error);
               log_stack := Some (stack error); meta := m |}.

(** ** The external process runner *)

(** The message of the error [exec] rejects with. *)
Definition exec_error_message (command : string) (o : ProcOutcome) : string :=
  match o with
  | Exit0 _ _ => EmptyString
  | ExitFail _ stderr => "Command failed: " +:+ command +:+ Str.newline +:+ stderr
  | MaxBuffer stream => stream +:+ " maxBuffer length exceeded"
  | Overrun => "FFmpeg execution timeout"
  end.

(** [execWithTimeout]: the race of [execAsync] against the timer.  The process
    is recorded as launched, the files it wrote so far appear in the scratch
    directory, and the promise settles as the environment says. *)
Definition execWithTimeout (env : Env) (command : string) (timeout : N) : M (string * string) :=
  fun w =>
    let '(outcome, written) := exec_behaviour env command timeout in
    let w' := {| files := files w ∪ list_to_set written;
                 logs := logs w;
                 launched := launched w ++ [(command, timeout)] |} in
    match outcome with
    | Exit0 out err => (Val (out, err), w')
    | o => (Throw (new_Error (exec_error_message command o)), w')
    end.

(** ** The artifact store *)

Definition existsSync (filePath : string) : M bool := fun w =>
  (Val (bool_decide (filePath ∈ files w)), w).

(** [fs.promises.unlink]: rejects when the environment refuses the deletion
    or when there is no such file. *)
Definition unlink (env : Env) (filePath : string) : M unit := fun w =>
  if unlink_fails env filePath then
    (Throw (new_Error ("EPERM: operation not permitted, unlink '" +:+ filePath +:+ "'")), w)
  else if bool_decide (filePath ∈ files w) then
    (Val tt, {| files := files w ∖ {[ filePath ]}; logs := logs w; launched := launched w |})
  else
    (Throw (new_Error ("ENOENT: no such file or directory, unlink '" +:+ filePath +:+ "'")), w).

Fixpoint cleanupFiles (env : Env) (filePaths : list string) : M unit :=
  match filePaths with
  | [] => mret tt
  | filePath :: rest =>
      try_catch
        (b ← existsSync filePath;
         if b : bool then
           unlink env filePath;;
           logger_info "File cleaned up" [("path", JStr filePath)]
         else mret tt)
        (fun error =>
           logger_error "Failed to cleanup file" error [("path", JStr filePath)]);;
      cleanupFiles env rest
  end.

(** ** The upload middleware ([multer]) *)

Record UploadedFile := {
  originalname : string;
  mimetype : string;
  file_size : N
}.

(** A request carries at most one file, in the field [video], and the text
    field [quality] when the form has it, once.  (A second file or a file in
    another field makes [multer] raise a [MulterError], which the global error
    handler below answers with 400.) *)
Record Request := {
  req_file : option UploadedFile;
  req_quality : option string
}.

(** [req.file] once the disk storage has written the upload. *)
Record StoredFile := {
  filename : string;
  path : string;
  stored_size : N
}.

(** The [filename] callback of the disk storage. *)
Definition storage_filename (env : Env) (file : UploadedFile) : string :=
  Str.of_N (now_upload env) +:+ "-" +:+ sanitizeFilename (originalname file).

(** The [fileFilter] callback: [cb(null, true)] or [cb(new Error(...))]. *)
Definition fileFilter (file : UploadedFile) : JsError + bool :=
  if Str.mem (mimetype file) ALLOWED_MIME_TYPES then inr true
  else inl (new_Error ("Invalid file type. Allowed types: " +:+
                       Str.join ", " ALLOWED_MIME_TYPES)).

(** [req.file] for an accepted upload: [path] is the destination joined with
    the storage's filename. *)
Definition stored_file (env : Env) (file : UploadedFile) : StoredFile :=
  let name := storage_filename env file in
  {| filename := name;
     path := Path.join (uploadDir env) name;
     stored_size := file_size file |}.

(** [upload.single('video')]: the filter runs before any byte is stored; an
    upload over [limits.fileSize] is aborted with a [MulterError] and its
    partial file removed; otherwise the file is in the scratch directory.
    An error goes to [next(err)], the route handler does not run. *)
Definition upload_single (env : Env) (req : Request) : M (option StoredFile) :=
  match req_file req with
  | None => mret None
  | Some file =>
      match fileFilter file with
      | inl error => throw error
      | inr _ =>
          if MAX_FILE_SIZE <? file_size file then
            throw (new_MulterError "LIMIT_FILE_SIZE" "File too large")
          else
            let stored := stored_file env file in
            fun w => (Val (Some stored),
                      {| files := files w ∪ {[ path stored ]};
                         logs := logs w; launched := launched w |})
      end
  end.

(** ** The conversion pipeline *)

Definition base_of (filename : string) : string :=
  Path.basename filename (Path.extname filename).

Definition thumbnailPath_of (env : Env) (filename : string) : string :=
  Path.join (uploadDir env) ("thumb-" +:+ base_of filename +:+ ".jpg").

Definition outputPath_of (env : Env) (filename : string) : string :=
  Path.join (uploadDir env) (base_of filename +:+ ".gif").

Definition paletteFile_of (env : Env) : string :=
  Path.join (uploadDir env) ("palette-" +:+ Str.of_N (now_palette env) +:+ ".png").

Definition thumbnailCmd (inputPath thumbnailPath : string) : string :=
  "ffmpeg -i " +:+ Str.dquote +:+ inputPath +:+ Str.dquote +:+
  " -ss 00:00:01 -vframes 1 -vf " +:+ Str.dquote +:+ "scale=320:-1" +:+ Str.dquote +:+
  " " +:+ Str.dquote +:+ thumbnailPath +:+ Str.dquote.

Definition paletteCmd (inputPath : string) (preset : PropValue) (paletteFile : string) : string :=
  "ffmpeg -i " +:+ Str.dquote +:+ inputPath +:+ Str.dquote +:+
  " -vf " +:+ Str.dquote +:+
  "fps=" +:+ interpolate (field fps preset) +:+
  ",scale=" +:+ interpolate (field scale preset) +:+
  ":-1:flags=lanczos,palettegen=max_colors=" +:+ interpolate (field colors preset) +:+
  Str.dquote +:+ " -y " +:+ Str.dquote +:+ paletteFile +:+ Str.dquote.

Definition convertCmd (inputPath paletteFile : string) (preset : PropValue) (outputPath : string) : string :=
  "ffmpeg -i " +:+ Str.dquote +:+ inputPath +:+ Str.dquote +:+
  " -i " +:+ Str.dquote +:+ paletteFile +:+ Str.dquote +:+
  " -lavfi " +:+ Str.dquote +:+
  "fps=" +:+ interpolate (field fps preset) +:+
  ",scale=" +:+ interpolate (field scale preset) +:+
  ":-1:flags=lanczos[x];[x][1:v]paletteuse" +:+
  Str.dquote +:+ " -y " +:+ Str.dquote +:+ outputPath +:+ Str.dquote.

(** [res.sendFile(path, callback)]: the transfer fails when the file is not
    there or when the environment says so; with a callback Express leaves the
    error to it and finalizes no response of its own.  The callback runs once
    the transfer is over. *)
Definition sendFile (env : Env) (filePath : string)
    (callback : option JsError -> M unit) : M Response :=
  fun w =>
    let err :=
      if bool_decide (filePath ∈ files w) then new_Error <$> send_error env
      else Some (new_Error ("ENOENT: no such file or directory, stat '" +:+ filePath +:+ "'")) in
    match callback err w with
    | (Val _, w') =>
        (Val (match err with None => FileResponse filePath | Some _ => NoResponse end), w')
    | (Throw e, w') => (Throw e, w')
    end.

(** [req.body.quality || 'medium']: [undefined] and the empty string are falsy. *)
Definition quality_or_default (q : option string) : string :=
  match q with
  | None => "medium"
  | Some s => if String.eqb s EmptyString then "medium" else s
  end.

(** The callback handed to [res.sendFile]: log a failed transfer, then release
    the artifacts. *)
Definition after_send (env : Env) (what : string) (artifacts : list string)
    (err : option JsError) : M unit :=
  match err with
  | Some e => logger_error what e []
  | None => mret tt
  end;;
  cleanupFiles env artifacts.

(** [app.post('/thumbnail', ...)]: the [try] block after the early return. *)
Definition thumbnail_try (env : Env) (inputPath thumbnailPath : string) : M Response :=
  logger_info "Generating thumbnail" [("input", JStr inputPath)];;
  let command := thumbnailCmd inputPath thumbnailPath in
  execWithTimeout env command 30000;;
  sendFile env thumbnailPath
    (after_send env "Error sending thumbnail" [inputPath; thumbnailPath]).

Definition thumbnail_failure (error : JsError) : Response :=
  JsonResponse 500
    [("error", JStr "Failed to generate thumbnail");
     ("details", JStr (message error))].

(** The [catch] block of the thumbnail handler. *)
Definition thumbnail_catch (env : Env) (inputPath thumbnailPath : string)
    (error : JsError) : M Response :=
  logger_error "Thumbnail generation failed" error [("input", JStr inputPath)];;
  cleanupFiles env [inputPath; thumbnailPath];;
  mret (thumbnail_failure error).

(** [app.post('/thumbnail', ...)].  The early return precedes every statement
    that can throw, so it is written before the [try]; [inputPath] and
    [thumbnailPath] are assigned before the first such statement, so the
    [catch] block reads the assigned values. *)
Definition thumbnail_handler (env : Env) (file : option StoredFile) : M Response :=
  match file with
  | None => mret (JsonResponse 400 [("error", JStr "No video file uploaded")])
  | Some file =>
      let inputPath := path file in
      let thumbnailPath := thumbnailPath_of env (filename file) in
      try_catch (thumbnail_try env inputPath thumbnailPath)
                (thumbnail_catch env inputPath thumbnailPath)
  end.

(** [app.post('/convert', ...)]: the [try] block after the early returns.
    [paletteFile] is a [const] of this block. *)
Definition convert_try (env : Env) (quality : string) (preset : PropValue)
    (file : StoredFile) (inputPath outputPath : string) : M Response :=
  logger_info "Starting video conversion"
    [("input", JStr inputPath); ("quality", JStr quality);
     ("fileSize", JNum (stored_size file))];;
  let paletteFile := paletteFile_of env in
  execWithTimeout env (paletteCmd inputPath preset paletteFile) (FFMPEG_TIMEOUT / 2);;
  execWithTimeout env (convertCmd inputPath paletteFile preset outputPath) FFMPEG_TIMEOUT;;
  logger_info "Conversion successful"
    [("output", JStr outputPath); ("quality", JStr quality)];;
  sendFile env outputPath
    (after_send env "Error sending GIF file" [inputPath; outputPath; paletteFile]).

Definition convert_timeout : Response :=
  JsonResponse 408
    [("error", JStr "Conversion timeout");
     ("details", JStr "Video processing took too long. Try a shorter video or lower quality.")].

Definition convert_failure (error : JsError) : Response :=
  JsonResponse 500
    [("error", JStr "Video conversion failed");
     ("details", JStr (message error))].

(** The [catch] block of the convert handler; [paletteFile] is out of its
    scope. *)
Definition convert_catch (env : Env) (inputPath outputPath : string)
    (error : JsError) : M Response :=
  logger_error "Video conversion failed" error
    [("input", JStr inputPath); ("output", JStr outputPath)];;
  cleanupFiles env [inputPath; outputPath];;
  if Str.includes (message error) "timeout" then mret convert_timeout
  else mret (convert_failure error).

Definition invalid_quality : Response :=
  JsonResponse 400
    [("error", JStr "Invalid quality setting");
     ("allowed", JArr (Object_keys QUALITY_PRESETS))].

(** [app.post('/convert', ...)], with the two early returns written before the
    [try] as in the thumbnail handler. *)
Definition convert_handler (env : Env) (file : option StoredFile)
    (body_quality : option string) : M Response :=
  match file with
  | None => mret (JsonResponse 400 [("error", JStr "No video file uploaded")])
  | Some file =>
      let quality := quality_or_default body_quality in
      if negb (truthy (get_preset quality)) then mret invalid_quality
      else
        let preset := get_preset quality in
        let inputPath := path file in
        let outputPath := outputPath_of env (filename file) in
        try_catch (convert_try env quality preset file inputPath outputPath)
                  (convert_catch env inputPath outputPath)
  end.

(** The global error handler, reached through [next(err)]. *)
Definition error_handler (error : JsError) : M Response :=
  match error_class error with
  | MulterError code =>
      logger_error "Multer error" error [];;
      if String.eqb code "LIMIT_FILE_SIZE" then
        mret (JsonResponse 413
                [("error", JStr "File too large");
                 ("maxSize", JStr (Str.of_N (MAX_FILE_SIZE / (1024 * 1024)) +:+ "MB"))])
      else
        mret (JsonResponse 400
                [("error", JStr "File upload error");
                 ("details", JStr (message error))])
  | PlainError =>
      logger_error "Unexpected error" error [];;
      mret (JsonResponse 500
              [("error", JStr "Internal server error");
               ("details", JStr (message error))])
  end.

Inductive Route := Thumbnail | Convert.

Definition handler (route : Route) (env : Env) (req : Request)
    (file : option StoredFile) : M Response :=
  match route with
  | Thumbnail => thumbnail_handler env file
  | Convert => convert_handler env file (req_quality req)
  end.

(** One request from the middleware to the end of its callbacks, started in a
    scratch directory holding [fs]: the response and the final world.  An
    exception leaving an [async] handler would be an unhandled rejection,
    with no response. *)
Definition serve (route : Route) (env : Env) (req : Request) (fs : gset string)
    : Response * World :=
  match upload_single env req (init_world fs) with
  | (Throw error, w) =>
      match error_handler error w with
      | (Val r, w') => (r, w')
      | (Throw _, w') => (NoResponse, w')
      end
  | (Val file, w) =>
      match handler route env req file w with
      | (Val r, w') => (r, w')
      | (Throw _, w') => (NoResponse, w')
      end
  end.

(** The artifact paths a request allocates: input, palette, output, thumbnail. *)
Definition artifact_paths (env : Env) (file : UploadedFile) : list string :=
  let name := storage_filename env file in
  [ Path.join (uploadDir env) name;
    paletteFile_of env;
    outputPath_of env name;
    thumbnailPath_of env name ].

(** ** Reading the log and the launch record *)

(** The record [cleanupFiles] writes when the deletion of [p] fails. *)
Definition is_cleanup_failure (p : string) (e : LogEntry) : bool :=
  String.eqb (level e) "error" &&
  String.eqb (log_message e) "Failed to cleanup file" &&
  match meta e with
  | [(k, JStr v)] => String.eqb k "path" && String.eqb v p
  | _ => false
  end.

(** The world after the loop body of [cleanupFiles] ran on [p]. *)
Definition after_cleanup_of (env : Env) (p : string) (w : World) : World :=
  if bool_decide (p ∈ files w) then
    if unlink_fails env p then
      {| files := files w;
         logs := logs w ++
           [{| level := "error"; log_message := "Failed to cleanup file";
               log_error := Some ("EPERM: operation not permitted, unlink '" +:+ p +:+ "'");
               log_stack := Some (stack (new_Error
                 ("EPERM: operation not permitted, unlink '" +:+ p +:+ "'")));
               meta := [("path", JStr p)] |}];
         launched := launched w |}
    else
      {| files := files w ∖ {[ p ]};
         logs := logs w ++
           [{| level := "info"; log_message := "File cleaned up";
               log_error := None; log_stack := None;
               meta := [("path", JStr p)] |}];
         launched := launched w |}
  else w.

Definition outcome (env : Env) (command : string) (timeout : N) : ProcOutcome :=
  fst (exec_behaviour env command timeout).

Definition succeeded (o : ProcOutcome) : bool :=
  match o with
  | Exit0 _ _ => true
  | _ => false
  end.

(** The process hit its timer: the timeout of [execWithTimeout] won the race. *)
Definition overran (o : ProcOutcome) : bool :=
  match o with
  | Overrun => true
  | _ => false
  end.

(** The process ended by itself with a failure: a non-zero exit or too much
    output. *)
Definition failed_by_itself (o : ProcOutcome) : bool :=
  match o with
  | ExitFail _ _ | MaxBuffer _ => true
  | _ => false
  end.

(** The world once [execWithTimeout] has settled. *)
Definition after_exec (env : Env) (command : string) (timeout : N) (w : World) : World :=
  {| files := files w ∪ list_to_set (snd (exec_behaviour env command timeout));
     logs := logs w;
     launched := launched w ++ [(command, timeout)] |}.

Definition after_log (e : LogEntry) (w : World) : World :=
  {| files := files w; logs := logs w ++ [e]; launched := launched w |}.

Definition info_entry (msg : string) (m : list (string * Json)) : LogEntry :=
  {| level := "info"; log_message := msg; log_error := None;
     log_stack := None; meta := m |}.

Definition error_entry (msg : string) (error : JsError) (m : list (string * Json)) : LogEntry :=
  {| level := "error"; log_message := msg; log_error := Some (message error);
     log_stack := Some (stack error); meta := m |}.

(** The error [res.sendFile] hands to its callback. *)
Definition send_failure (env : Env) (filePath : string) (w : World) : option JsError :=
  if bool_decide (filePath ∈ files w) then new_Error <$> send_error env
  else Some (new_Error ("ENOENT: no such file or directory, stat '" +:+ filePath +:+ "'")).

Definition send_response (env : Env) (filePath : string) (w : World) : Response :=
  match send_failure env filePath w with
  | None => FileResponse filePath
  | Some _ => NoResponse
  end.

(** The three launches of the server: command and timeout. *)
Definition thumbnail_stage (env : Env) (file : StoredFile) : string * N :=
  (thumbnailCmd (path file) (thumbnailPath_of env (filename file)), 30000).

Definition stage1 (env : Env) (file : StoredFile) (quality : string) : string * N :=
  (paletteCmd (path file) (get_preset quality) (paletteFile_of env),
   FFMPEG_TIMEOUT / 2).

Definition stage2 (env : Env) (file : StoredFile) (quality : string) : string * N :=
  (convertCmd (path file) (paletteFile_of env) (get_preset quality)
              (outputPath_of env (filename file)),
   FFMPEG_TIMEOUT).

Definition stage_outcome (env : Env) (stage : string * N) : ProcOutcome :=
  outcome env (fst stage) (snd stage).

(** The world in which the convert handler calls [res.sendFile]. *)
Definition world_before_send (env : Env) (file : StoredFile) (quality : string)
    (w : World) : World :=
  after_log (info_entry "Conversion successful"
               [("output", JStr (outputPath_of env (filename file)));
                ("quality", JStr quality)])
    (after_exec env (fst (stage2 env file quality)) (snd (stage2 env file quality))
       (after_exec env (fst (stage1 env file quality)) (snd (stage1 env file quality))
          (after_log (info_entry "Starting video conversion"
                        [("input", JStr (path file)); ("quality", JStr quality);
                         ("fileSize", JNum (stored_size file))]) w))).

(** The error a failed stage throws. *)
Definition stage_error (env : Env) (command : string) (timeout : N) : JsError :=
  new_Error (exec_error_message command (outcome env command timeout)).

(** The response of the [catch] block of the convert handler. *)
Definition convert_error_response (error : JsError) : Response :=
  if Str.includes (message error) "timeout" then convert_timeout
  else convert_failure error.

(** [req.file] when the middleware lets the request through with a file. *)
Definition accepted_upload (env : Env) (req : Request) : option StoredFile :=
  match req_file req with
  | None => None
  | Some file =>
      if Str.mem (mimetype file) ALLOWED_MIME_TYPES
         && negb (MAX_FILE_SIZE <? file_size file)
      then Some (stored_file env file)
      else None
  end.

Definition after_store (file : StoredFile) (w : World) : World :=
  {| files := files w ∪ {[ path file ]}; logs := logs w; launched := launched w |}.

(** The processes a handler launches for an accepted upload, in order. *)
Definition launches (route : Route) (env : Env) (file : StoredFile)
    (q : option string) : list (string * N) :=
  match route with
  | Thumbnail => [thumbnail_stage env file]
  | Convert =>
      let quality := quality_or_default q in
      if truthy (get_preset quality) then
        if succeeded (stage_outcome env (stage1 env file quality))
        then [stage1 env file quality; stage2 env file quality]
        else [stage1 env file quality]
      else []
  end.

(** [s] between double quotes, as the command lines write a path. *)
Definition quoted (s : string) : string := Str.dquote +:+ s +:+ Str.dquote.

(** The palette command up to its output option, and the encoding command
    from its filter graph on. *)
Definition palette_head (inputPath : string) (preset : PropValue) : string :=
  "ffmpeg -i " +:+ quoted inputPath +:+ " -vf " +:+
  quoted ("fps=" +:+ interpolate (field fps preset) +:+
          ",scale=" +:+ interpolate (field scale preset) +:+
          ":-1:flags=lanczos,palettegen=max_colors=" +:+
          interpolate (field colors preset)).

Definition encode_tail (preset : PropValue) (outputPath : string) : string :=
  quoted ("fps=" +:+ interpolate (field fps preset) +:+
          ",scale=" +:+ interpolate (field scale preset) +:+
          ":-1:flags=lanczos[x];[x][1:v]paletteuse") +:+
  " -y " +:+ quoted outputPath.

Definition not_dot (c : ascii) : bool := negb (Ascii.eqb c ".").

(** ** Concrete requests and environments *)

Module Scenario.

Definition clip : UploadedFile :=
  {| originalname := "my clip.mp4"; mimetype := "video/mp4"; file_size := 1000 |}.

Definition picture : UploadedFile :=
  {| originalname := "photo.png"; mimetype := "image/png"; file_size := 1000 |}.

Definition request (file : UploadedFile) (q : option string) : Request :=
  {| req_file := Some file; req_quality := q |}.

Definition server (behaviour : string -> N -> ProcOutcome * list string) : Env :=
  {| dirname := "/usr/src/app";
     now_upload := 1700000000000;
     now_palette := 1700000000042;
     exec_behaviour := behaviour;
     unlink_fails := fun _ => false;
     send_error := None |}.

(** The same server one millisecond later. *)
Definition server_later (behaviour : string -> N -> ProcOutcome * list string) : Env :=
  {| dirname := "/usr/src/app";
     now_upload := 1700000000001;
     now_palette := 1700000000043;
     exec_behaviour := behaviour;
     unlink_fails := fun _ => false;
     send_error := None |}.

(** An upload whose name holds the word the [catch] block looks for. *)
Definition timeout_clip : UploadedFile :=
  {| originalname := "timeout.mp4"; mimetype := "video/mp4"; file_size := 1000 |}.

(** Another upload, whose name sanitizes to the name of [clip]. *)
Definition other_clip : UploadedFile :=
  {| originalname := "my_clip.mp4"; mimetype := "video/webm"; file_size := 2000 |}.

Definition palette : string := "/usr/src/app/uploads/palette-1700000000042.png".
Definition gif : string := "/usr/src/app/uploads/1700000000000-my_clip.gif".
Definition input : string := "/usr/src/app/uploads/1700000000000-my_clip.mp4".

(** ffmpeg rejects its input: exit code 1, nothing written. *)
Definition rejects_input (command : string) (timeout : N) : ProcOutcome * list string :=
  (ExitFail 1 "Invalid data found when processing input", []).

(** Every process is still running when its timer fires. *)
Definition never_ends (command : string) (timeout : N) : ProcOutcome * list string :=
  (Overrun, []).

(** The palette pass (the launch with the half budget) succeeds and writes the
    palette; the encoding pass exits with code 1. *)
Definition encode_fails (command : string) (timeout : N) : ProcOutcome * list string :=
  if timeout =? FFMPEG_TIMEOUT / 2 then (Exit0 EmptyString EmptyString, [palette])
  else (ExitFail 1 "Conversion failed!", []).

(** Both passes succeed and write their targets. *)
Definition all_succeed (command : string) (timeout : N) : ProcOutcome * list string :=
  if timeout =? FFMPEG_TIMEOUT / 2 then (Exit0 EmptyString EmptyString, [palette])
  else (Exit0 EmptyString EmptyString, [gif]).

End Scenario.

(** ** Further readings of a run *)

(** The paths among [paths] whose deletion the environment does not refuse. *)
Definition releasable (env : Env) (paths : list string) : gset string :=
  list_to_set (filter (fun p => unlink_fails env p = false) paths).

(** The files a launch has written when [execWithTimeout] settles. *)
Definition written (env : Env) (stage : string * N) : gset string :=
  list_to_set (snd (exec_behaviour env (fst stage) (snd stage))).

(** The statuses a route can answer with; [None] is a request left without a
    response. *)
Definition route_statuses (route : Route) : list (option N) :=
  match route with
  | Thumbnail => [None; Some 200; Some 400; Some 413; Some 500]
  | Convert => [None; Some 200; Some 400; Some 408; Some 413; Some 500]
  end.

Module Scenario2.

(** A file of somebody else in the scratch directory. *)
Definition bystander : string := "/usr/src/app/uploads/keep.me".

(** An upload over the size limit. *)
Definition huge : UploadedFile :=
  {| originalname := "film.mkv"; mimetype := "video/x-matroska";
     file_size := 100 * 1024 * 1024 + 1 |}.

(** An upload whose name already has the extension of the output. *)
Definition loop_gif : UploadedFile :=
  {| originalname := "loop.gif"; mimetype := "video/mp4"; file_size := 1000 |}.


(** The extraction writes the thumbnail and exits with code 0. *)
Definition thumbnail_written (command : string) (timeout : N) : ProcOutcome * list string :=
  (Exit0 EmptyString EmptyString,
   ["/usr/src/app/uploads/thumb-1700000000000-my_clip.jpg"]).

End Scenario2.

(** * Properties *)

(** ** Strings *)

Section StringFacts.

Implicit Types (s t p : string) (c : ascii).

Lemma append_nil s : EmptyString +:+ s = s.
Proof. reflexivity. Qed.

Lemma append_cons c s t : String c s +:+ t = String c (s +:+ t).
Proof. reflexivity. Qed.

Lemma append_empty_r s : s +:+ EmptyString = s.
Proof.
  induction s as [|c s IH]; [reflexivity|]. by rewrite append_cons, IH.
Qed.

Lemma append_assoc s t p : (s +:+ t) +:+ p = s +:+ (t +:+ p).
Proof.
  induction s as [|c s IH]; [reflexivity|]. by rewrite !append_cons, IH.
Qed.

Lemma append_cancel_l s t p : s +:+ t = s +:+ p → t = p.
Proof.
  induction s as [|c s IH]; [done|]. rewrite !append_cons. intros [= H]. auto.
Qed.

Lemma length_append s t :
  String.length (s +:+ t) = (String.length s + String.length t)%nat.
Proof.
  induction s as [|c s IH]; [reflexivity|]. rewrite append_cons. simpl. by rewrite IH.
Qed.

Lemma map_length f s : String.length (Str.map f s) = String.length s.
Proof. induction s as [|c s IH]; simpl; [reflexivity | by f_equal]. Qed.

Lemma map_get f s (i : nat) : String.get i (Str.map f s) = f <$> String.get i s.
Proof.
  revert i. induction s as [|c s IH]; intros i; simpl; [reflexivity|].
  destruct i as [|i]; simpl; [reflexivity | apply IH].
Qed.

Lemma map_chars f s :
  String.list_ascii_of_string (Str.map f s) = List.map f (String.list_ascii_of_string s).
Proof. induction s as [|c s IH]; simpl; [reflexivity | by f_equal]. Qed.

End StringFacts.

(** ** The sanitizer *)

(** The class of the regular expression, character by character. *)
Lemma in_class_alphabet (c : ascii) :
  in_class c = true ↔
  In c (String.list_ascii_of_string
          "abcdefghijklmnopqrstuvwxyzABCDEFGHIJKLMNOPQRSTUVWXYZ0123456789._-").
Proof.
  split.
  - destruct c as [[] [] [] [] [] [] [] []]; vm_compute; intros H;
      first [ discriminate H | tauto ].
  - intros H. simpl in H.
    repeat (destruct H as [<- | H]; [reflexivity|]). destruct H.
Qed.

Lemma sanitize_char_in_class (c : ascii) : in_class (sanitize_char c) = true.
Proof. unfold sanitize_char. destruct (in_class c) eqn:E; [exact E | reflexivity]. Qed.

Lemma sanitize_char_fixed (c : ascii) : in_class c = true → sanitize_char c = c.
Proof. unfold sanitize_char. by intros ->. Qed.

Lemma sanitize_chars_in_class (name : string) :
  Forall (fun c => in_class c = true)
         (String.list_ascii_of_string (sanitizeFilename name)).
Proof.
  unfold sanitizeFilename. rewrite map_chars.
  induction (String.list_ascii_of_string name) as [|c l IH]; simpl; constructor;
    [apply sanitize_char_in_class | exact IH].
Qed.

(** C7: [sanitizeFilename] is a total function that keeps the length of its
    argument, keeps each character of the class [A-Za-z0-9._-] where it is and
    puts the placeholder [_] for every other character; its result holds
    characters of the class only. *)
Theorem sanitize_replaces_outside_class (name : string) :
  String.length (sanitizeFilename name) = String.length name ∧
  String.list_ascii_of_string (sanitizeFilename name) =
    List.map (fun c => if in_class c then c else "_"%char)
             (String.list_ascii_of_string name) ∧
  Forall (fun c => in_class c = true)
         (String.list_ascii_of_string (sanitizeFilename name)).
Proof.
  split; [apply map_length|]. split; [apply map_chars|].
  apply sanitize_chars_in_class.
Qed.

(** C10: sanitizing twice is sanitizing once, every character of a sanitized
    name being left as it is by the sanitizer. *)
Theorem sanitize_idempotent (s : string) :
  sanitizeFilename (sanitizeFilename s) = sanitizeFilename s ∧
  Forall (fun c => sanitize_char c = c)
         (String.list_ascii_of_string (sanitizeFilename s)).
Proof.
  split.
  - unfold sanitizeFilename. induction s as [|c s IH]; simpl; [reflexivity|].
    rewrite IH. f_equal. apply sanitize_char_fixed, sanitize_char_in_class.
  - eapply Forall_impl; [apply sanitize_chars_in_class|].
    intros c Hc. by apply sanitize_char_fixed.
Qed.

(** ** The artifact store: [cleanupFiles] *)

Section Cleanup.

Variable env : Env.

Lemma cleanupFiles_cons (p : string) (rest : list string) (w : World) :
  cleanupFiles env (p :: rest) w = cleanupFiles env rest (after_cleanup_of env p w).
Proof.
  unfold after_cleanup_of. simpl.
  unfold mbind, M_bind, try_catch, existsSync, unlink, logger_info, logger_error,
    write_log, mret, M_ret.
  destruct (bool_decide (p ∈ files w)) eqn:Hin; simpl; [|reflexivity].
  destruct (unlink_fails env p) eqn:Hfail; simpl; [reflexivity|].
  rewrite Hin. reflexivity.
Qed.

Lemma cleanupFiles_returns (paths : list string) (w : World) :
  fst (cleanupFiles env paths w) = Val tt.
Proof.
  revert w. induction paths as [|p rest IH]; intros w; [reflexivity|].
  rewrite cleanupFiles_cons. apply IH.
Qed.

Lemma cleanupFiles_val (paths : list string) (w : World) :
  cleanupFiles env paths w = (Val tt, snd (cleanupFiles env paths w)).
Proof.
  pose proof (cleanupFiles_returns paths w) as H.
  destruct (cleanupFiles env paths w) as [r w']. simpl in *. by subst.
Qed.

Lemma cleanupFiles_launched (paths : list string) (w : World) :
  launched (snd (cleanupFiles env paths w)) = launched w.
Proof.
  revert w. induction paths as [|p rest IH]; intros w; [reflexivity|].
  rewrite cleanupFiles_cons, IH. unfold after_cleanup_of.
  repeat case_match; reflexivity.
Qed.

Lemma cleanupFiles_files (paths : list string) (w : World) :
  files (snd (cleanupFiles env paths w)) =
  files w ∖ list_to_set (filter (fun p => unlink_fails env p = false) paths).
Proof.
  revert w. induction paths as [|p rest IH]; intros w.
  - simpl. set_solver.
  - rewrite cleanupFiles_cons, IH. unfold after_cleanup_of.
    destruct (unlink_fails env p) eqn:Hfail.
    + rewrite filter_cons_False by congruence.
      case_bool_decide; reflexivity.
    + rewrite filter_cons_True by done.
      case_bool_decide; simpl; set_solver.
Qed.

Lemma cleanupFiles_logs_grow (paths : list string) (w : World) :
  ∃ more, logs (snd (cleanupFiles env paths w)) = logs w ++ more.
Proof.
  revert w. induction paths as [|p rest IH]; intros w.
  - exists []. simpl. by rewrite app_nil_r.
  - rewrite cleanupFiles_cons. destruct (IH (after_cleanup_of env p w)) as [more ->].
    unfold after_cleanup_of. repeat case_match; simpl;
      rewrite <- ?app_assoc; eauto.
Qed.

Lemma cleanupFiles_failure_logged (paths : list string) (w : World) (p : string) :
  p ∈ paths → p ∈ files w → unlink_fails env p = true →
  existsb (is_cleanup_failure p) (logs (snd (cleanupFiles env paths w))) = true.
Proof.
  revert w. induction paths as [|q rest IH]; intros w Hp Hin Hfail.
  - by apply elem_of_nil in Hp.
  - rewrite cleanupFiles_cons.
    destruct (decide (p = q)) as [<-|Hne].
    + destruct (cleanupFiles_logs_grow rest (after_cleanup_of env p w)) as [more ->].
      unfold after_cleanup_of. rewrite bool_decide_eq_true_2, Hfail by done. simpl.
      rewrite !existsb_app. simpl. unfold is_cleanup_failure at 2. simpl.
      rewrite String.eqb_refl. simpl. by rewrite orb_true_r.
    + apply elem_of_cons in Hp as [?|Hp]; [done|].
      apply IH; [done| |done].
      unfold after_cleanup_of. repeat case_match; simpl; set_solver.
Qed.

End Cleanup.

(** ** Running the handlers, step by step *)

Section Run.

Variable env : Env.

Lemma logger_info_run msg m (w : World) :
  logger_info msg m w = (Val tt, after_log (info_entry msg m) w).
Proof. reflexivity. Qed.

Lemma logger_error_run msg error m (w : World) :
  logger_error msg error m w = (Val tt, after_log (error_entry msg error m) w).
Proof. reflexivity. Qed.

Lemma bind_run {A B} (m : M A) (k : A → M B) (w w' : World) (a : A) :
  m w = (Val a, w') → (m ≫= k) w = k a w'.
Proof. unfold mbind, M_bind. by intros ->. Qed.

Lemma bind_throw {A B} (m : M A) (k : A → M B) (w w' : World) (e : JsError) :
  m w = (Throw e, w') → (m ≫= k) w = (Throw e, w').
Proof. unfold mbind, M_bind. by intros ->. Qed.

Lemma execWithTimeout_run command timeout (w : World) :
  execWithTimeout env command timeout w =
  (match outcome env command timeout with
   | Exit0 out err => Val (out, err)
   | _ => Throw (stage_error env command timeout)
   end, after_exec env command timeout w).
Proof.
  unfold execWithTimeout, stage_error, outcome, after_exec.
  destruct (exec_behaviour env command timeout) as [[] written]; reflexivity.
Qed.

Lemma execWithTimeout_fails command timeout (w : World) :
  succeeded (outcome env command timeout) = false →
  execWithTimeout env command timeout w =
  (Throw (stage_error env command timeout), after_exec env command timeout w).
Proof.
  intros H. rewrite execWithTimeout_run.
  destruct (outcome env command timeout); [discriminate H | reflexivity..].
Qed.

Lemma execWithTimeout_succeeds command timeout (w : World) :
  succeeded (outcome env command timeout) = true →
  ∃ out, execWithTimeout env command timeout w =
         (Val out, after_exec env command timeout w).
Proof.
  intros H. rewrite execWithTimeout_run.
  destruct (outcome env command timeout); [eauto | discriminate H..].
Qed.

Lemma after_send_run what artifacts err (w : World) :
  after_send env what artifacts err w =
  (Val tt, snd (after_send env what artifacts err w)).
Proof.
  unfold after_send. destruct err as [e|].
  - erewrite bind_run by apply logger_error_run.
    rewrite cleanupFiles_val at 1. reflexivity.
  - erewrite bind_run by reflexivity.
    rewrite cleanupFiles_val at 1. reflexivity.
Qed.

Lemma sendFile_run filePath what artifacts (w : World) :
  sendFile env filePath (after_send env what artifacts) w =
  (Val (send_response env filePath w),
   snd (after_send env what artifacts (send_failure env filePath w) w)).
Proof.
  unfold sendFile, send_response. fold (send_failure env filePath w).
  rewrite after_send_run. reflexivity.
Qed.

Lemma thumbnail_catch_run inputPath thumbnailPath error (w : World) :
  thumbnail_catch env inputPath thumbnailPath error w =
  (Val (thumbnail_failure error),
   snd (cleanupFiles env [inputPath; thumbnailPath]
          (after_log (error_entry "Thumbnail generation failed" error
                        [("input", JStr inputPath)]) w))).
Proof.
  unfold thumbnail_catch.
  erewrite bind_run by apply logger_error_run.
  erewrite bind_run by apply cleanupFiles_val.
  reflexivity.
Qed.

Lemma convert_catch_run inputPath outputPath error (w : World) :
  convert_catch env inputPath outputPath error w =
  (Val (convert_error_response error),
   snd (cleanupFiles env [inputPath; outputPath]
          (after_log (error_entry "Video conversion failed" error
                        [("input", JStr inputPath); ("output", JStr outputPath)]) w))).
Proof.
  unfold convert_catch, convert_error_response.
  erewrite bind_run by apply logger_error_run.
  erewrite bind_run by apply cleanupFiles_val.
  destruct (Str.includes _ _); reflexivity.
Qed.

End Run.

(** ** The handlers as functions of the stage outcomes *)

Section Handlers.

Variable env : Env.

Lemma thumbnail_handler_run (file : StoredFile) (w : World) :
  let i := path file in
  let t := thumbnailPath_of env (filename file) in
  let c := thumbnailCmd i t in
  let w1 := after_exec env c 30000
              (after_log (info_entry "Generating thumbnail" [("input", JStr i)]) w) in
  thumbnail_handler env (Some file) w =
  if succeeded (outcome env c 30000) then
    sendFile env t (after_send env "Error sending thumbnail" [i; t]) w1
  else thumbnail_catch env i t (stage_error env c 30000) w1.
Proof.
  intros i t c w1. unfold thumbnail_handler, try_catch, thumbnail_try.
  fold i t c. erewrite bind_run by apply logger_info_run.
  destruct (succeeded (outcome env c 30000)) eqn:Hs.
  - destruct (execWithTimeout_succeeds env c 30000
                (after_log (info_entry "Generating thumbnail" [("input", JStr i)]) w) Hs)
      as [out Hrun].
    erewrite bind_run by exact Hrun. fold w1.
    rewrite sendFile_run. reflexivity.
  - erewrite bind_throw by (apply execWithTimeout_fails; exact Hs). reflexivity.
Qed.

Lemma convert_handler_run (file : StoredFile) (q : option string) (w : World) :
  let quality := quality_or_default q in
  let i := path file in
  let o := outputPath_of env (filename file) in
  let s1 := stage1 env file quality in
  let s2 := stage2 env file quality in
  let w1 := after_exec env (fst s1) (snd s1)
              (after_log (info_entry "Starting video conversion"
                 [("input", JStr i); ("quality", JStr quality);
                  ("fileSize", JNum (stored_size file))]) w) in
  let w2 := after_exec env (fst s2) (snd s2) w1 in
  convert_handler env (Some file) q w =
  if truthy (get_preset quality) then
    if succeeded (stage_outcome env s1) then
      if succeeded (stage_outcome env s2) then
        sendFile env o
          (after_send env "Error sending GIF file" [i; o; paletteFile_of env])
          (after_log (info_entry "Conversion successful"
                        [("output", JStr o); ("quality", JStr quality)]) w2)
      else convert_catch env i o (stage_error env (fst s2) (snd s2)) w2
    else convert_catch env i o (stage_error env (fst s1) (snd s1)) w1
  else (Val invalid_quality, w).
Proof.
  intros quality i o s1 s2 w1 w2. unfold convert_handler. fold quality.
  destruct (truthy (get_preset quality)); [|reflexivity].
  cbv beta iota zeta delta [negb]. unfold try_catch, convert_try. fold i o.
  erewrite bind_run by apply logger_info_run.
  change (paletteCmd i (get_preset quality) (paletteFile_of env)) with (fst s1).
  change (FFMPEG_TIMEOUT / 2) with (snd s1).
  change (convertCmd i (paletteFile_of env) (get_preset quality) o) with (fst s2).
  change FFMPEG_TIMEOUT with (snd s2).
  unfold stage_outcome.
  destruct (succeeded (outcome env (fst s1) (snd s1))) eqn:H1.
  - destruct (execWithTimeout_succeeds env (fst s1) (snd s1)
                (after_log (info_entry "Starting video conversion"
                   [("input", JStr i); ("quality", JStr quality);
                    ("fileSize", JNum (stored_size file))]) w) H1) as [out1 Hrun1].
    erewrite bind_run by exact Hrun1. fold w1.
    destruct (succeeded (outcome env (fst s2) (snd s2))) eqn:H2.
    + destruct (execWithTimeout_succeeds env (fst s2) (snd s2) w1 H2) as [out2 Hrun2].
      erewrite bind_run by exact Hrun2. fold w2.
      erewrite bind_run by apply logger_info_run.
      rewrite sendFile_run. reflexivity.
    + erewrite bind_throw by (apply execWithTimeout_fails; exact H2). reflexivity.
  - erewrite bind_throw by (apply execWithTimeout_fails; exact H1). reflexivity.
Qed.

End Handlers.

Section Summaries.

Variable env : Env.

Lemma after_send_launched what artifacts err (w : World) :
  launched (snd (after_send env what artifacts err w)) = launched w.
Proof.
  unfold after_send. destruct err as [e|].
  - erewrite bind_run by apply logger_error_run. by rewrite cleanupFiles_launched.
  - erewrite bind_run by reflexivity. by rewrite cleanupFiles_launched.
Qed.

Lemma upload_single_launched (req : Request) (w : World) :
  launched (snd (upload_single env req w)) = launched w.
Proof.
  unfold upload_single. destruct (req_file req) as [file|]; [|reflexivity].
  destruct (fileFilter file); [reflexivity|].
  destruct (MAX_FILE_SIZE <? file_size file); reflexivity.
Qed.

Lemma error_handler_run (error : JsError) (w : World) :
  ∃ r, error_handler error w = (Val r, snd (error_handler error w)) ∧
       launched (snd (error_handler error w)) = launched w.
Proof.
  unfold error_handler. destruct (error_class error) as [|code].
  - eexists. erewrite bind_run by apply logger_error_run. split; reflexivity.
  - erewrite bind_run by apply logger_error_run.
    destruct (String.eqb code "LIMIT_FILE_SIZE"); eexists; split; reflexivity.
Qed.

Lemma thumbnail_response (file : StoredFile) (w : World) :
  let s := thumbnail_stage env file in
  fst (thumbnail_handler env (Some file) w) =
  Val (if succeeded (stage_outcome env s) then
         send_response env (thumbnailPath_of env (filename file))
           (after_exec env (fst s) (snd s)
              (after_log (info_entry "Generating thumbnail"
                            [("input", JStr (path file))]) w))
       else thumbnail_failure (stage_error env (fst s) (snd s))).
Proof.
  intros s. rewrite thumbnail_handler_run. unfold stage_outcome. simpl.
  destruct (succeeded _).
  - by rewrite sendFile_run.
  - by rewrite thumbnail_catch_run.
Qed.

Lemma thumbnail_launched (file : StoredFile) (w : World) :
  launched (snd (thumbnail_handler env (Some file) w)) =
  launched w ++ [thumbnail_stage env file].
Proof.
  rewrite thumbnail_handler_run. destruct (succeeded _).
  - rewrite sendFile_run. cbn [snd fst]. by rewrite after_send_launched.
  - rewrite thumbnail_catch_run. cbn [snd fst]. by rewrite cleanupFiles_launched.
Qed.

Lemma convert_response (file : StoredFile) (q : option string) (w : World) :
  let quality := quality_or_default q in
  let s1 := stage1 env file quality in
  let s2 := stage2 env file quality in
  fst (convert_handler env (Some file) q w) =
  Val (if truthy (get_preset quality) then
         if succeeded (stage_outcome env s1) then
           if succeeded (stage_outcome env s2) then
             send_response env (outputPath_of env (filename file))
               (world_before_send env file quality w)
           else convert_error_response (stage_error env (fst s2) (snd s2))
         else convert_error_response (stage_error env (fst s1) (snd s1))
       else invalid_quality).
Proof.
  intros quality s1 s2. rewrite convert_handler_run. fold quality s1 s2.
  destruct (truthy _); [|reflexivity].
  destruct (succeeded (stage_outcome env s1)).
  - destruct (succeeded (stage_outcome env s2)).
    + by rewrite sendFile_run.
    + by rewrite convert_catch_run.
  - by rewrite convert_catch_run.
Qed.

Lemma convert_launched (file : StoredFile) (q : option string) (w : World) :
  let quality := quality_or_default q in
  let s1 := stage1 env file quality in
  let s2 := stage2 env file quality in
  launched (snd (convert_handler env (Some file) q w)) =
  launched w ++
  (if truthy (get_preset quality) then
     if succeeded (stage_outcome env s1) then [s1; s2] else [s1]
   else []).
Proof.
  intros quality s1 s2. rewrite convert_handler_run. fold quality s1 s2.
  destruct (truthy _); [|by rewrite app_nil_r].
  destruct (succeeded (stage_outcome env s1)).
  - destruct (succeeded (stage_outcome env s2)).
    + rewrite sendFile_run. cbn [snd fst]. rewrite after_send_launched. cbn [after_log after_exec launched].
      rewrite <- app_assoc. by destruct s1, s2.
    + rewrite convert_catch_run. cbn [snd fst]. rewrite cleanupFiles_launched. cbn [after_log after_exec launched].
      rewrite <- app_assoc. by destruct s1, s2.
  - rewrite convert_catch_run. cbn [snd fst]. rewrite cleanupFiles_launched. cbn [after_log after_exec launched].
    by destruct s1.
Qed.

End Summaries.

(** ** Whole requests *)

Section Serve.

Variable env : Env.

Lemma upload_single_accepted (req : Request) (file : StoredFile) (w : World) :
  accepted_upload env req = Some file →
  upload_single env req w = (Val (Some file), after_store file w).
Proof.
  unfold accepted_upload, upload_single, fileFilter.
  destruct (req_file req) as [f|]; [|discriminate].
  destruct (Str.mem (mimetype f) ALLOWED_MIME_TYPES); [|discriminate].
  destruct (MAX_FILE_SIZE <? file_size f); [discriminate|].
  intros [= <-]. reflexivity.
Qed.

Lemma upload_single_refused (req : Request) (w : World) :
  accepted_upload env req = None →
  upload_single env req w = (Val None, w) ∨
  ∃ error, upload_single env req w = (Throw error, w).
Proof.
  unfold accepted_upload, upload_single, fileFilter.
  destruct (req_file req) as [f|]; [|by left].
  destruct (Str.mem (mimetype f) ALLOWED_MIME_TYPES); [|right; by eexists].
  destruct (MAX_FILE_SIZE <? file_size f); [right; by eexists | discriminate].
Qed.

Lemma serve_refused_launches_nothing (route : Route) (req : Request) (fs : gset string) :
  accepted_upload env req = None →
  launched (snd (serve route env req fs)) = [].
Proof.
  intros H. unfold serve.
  destruct (upload_single_refused req (init_world fs) H) as [-> | [error ->]].
  - destruct route; reflexivity.
  - destruct (error_handler_run error (init_world fs)) as [r [-> Hl]].
    cbn [snd]. exact Hl.
Qed.

Lemma serve_accepted (route : Route) (req : Request) (fs : gset string)
    (file : StoredFile) :
  accepted_upload env req = Some file →
  ∃ r, handler route env req (Some file) (after_store file (init_world fs)) =
         (Val r, snd (serve route env req fs)) ∧
       fst (serve route env req fs) = r.
Proof.
  intros H. unfold serve. rewrite (upload_single_accepted req file _ H).
  destruct route; unfold handler.
  - pose proof (thumbnail_response env file (after_store file (init_world fs))) as Hr.
    destruct (thumbnail_handler env (Some file) _) as [[r|e] w]; [|discriminate Hr].
    by exists r.
  - pose proof (convert_response env file (req_quality req)
                  (after_store file (init_world fs))) as Hr.
    destruct (convert_handler env (Some file) _ _) as [[r|e] w]; [|discriminate Hr].
    by exists r.
Qed.

Lemma serve_launched (route : Route) (req : Request) (fs : gset string) :
  launched (snd (serve route env req fs)) =
  match accepted_upload env req with
  | Some file => launches route env file (req_quality req)
  | None => []
  end.
Proof.
  destruct (accepted_upload env req) as [file|] eqn:H;
    [|by apply serve_refused_launches_nothing].
  destruct (serve_accepted route req fs file H) as [r [Hrun _]].
  apply (f_equal (fun x => launched (snd x))) in Hrun. cbn [snd] in Hrun.
  rewrite <- Hrun. destruct route; unfold handler.
  - by rewrite thumbnail_launched.
  - by rewrite convert_launched.
Qed.

Lemma serve_thumbnail_response (req : Request) (fs : gset string) (file : StoredFile) :
  accepted_upload env req = Some file →
  succeeded (stage_outcome env (thumbnail_stage env file)) = false →
  fst (serve Thumbnail env req fs) =
  thumbnail_failure (stage_error env (fst (thumbnail_stage env file))
                                     (snd (thumbnail_stage env file))).
Proof.
  intros H Hs. destruct (serve_accepted Thumbnail req fs file H) as [r [Hrun ->]].
  apply (f_equal fst) in Hrun. unfold handler in Hrun.
  rewrite thumbnail_response, Hs in Hrun. by injection Hrun as <-.
Qed.

Lemma serve_convert_response (req : Request) (fs : gset string) (file : StoredFile) :
  let quality := quality_or_default (req_quality req) in
  let s1 := stage1 env file quality in
  let s2 := stage2 env file quality in
  accepted_upload env req = Some file →
  fst (serve Convert env req fs) =
    if truthy (get_preset quality) then
      if succeeded (stage_outcome env s1) then
        if succeeded (stage_outcome env s2) then
          send_response env (outputPath_of env (filename file))
            (world_before_send env file quality (after_store file (init_world fs)))
        else convert_error_response (stage_error env (fst s2) (snd s2))
      else convert_error_response (stage_error env (fst s1) (snd s1))
    else invalid_quality.
Proof.
  intros quality s1 s2 H.
  destruct (serve_accepted Convert req fs file H) as [r [Hrun ->]].
  apply (f_equal fst) in Hrun. unfold handler in Hrun. cbn [fst] in Hrun.
  rewrite convert_response in Hrun. by injection Hrun as <-.
Qed.

Lemma serve_thumbnail_response_gen (req : Request) (fs : gset string) (file : StoredFile) :
  let s := thumbnail_stage env file in
  accepted_upload env req = Some file →
  fst (serve Thumbnail env req fs) =
    if succeeded (stage_outcome env s) then
      send_response env (thumbnailPath_of env (filename file))
        (after_exec env (fst s) (snd s)
           (after_log (info_entry "Generating thumbnail" [("input", JStr (path file))])
              (after_store file (init_world fs))))
    else thumbnail_failure (stage_error env (fst s) (snd s)).
Proof.
  intros s H. destruct (serve_accepted Thumbnail req fs file H) as [r [Hrun ->]].
  apply (f_equal fst) in Hrun. unfold handler in Hrun.
  rewrite thumbnail_response in Hrun. by injection Hrun as <-.
Qed.

Lemma serve_refused_response (route : Route) (req : Request) (fs : gset string)
    (u : string → bool) :
  accepted_upload env req = None →
  fst (serve route (with_unlink env u) req fs) = fst (serve route env req fs).
Proof.
  intros H. unfold serve.
  change (upload_single (with_unlink env u) req) with (upload_single env req).
  destruct (upload_single_refused req (init_world fs) H) as [-> | [error ->]].
  - destruct route; reflexivity.
  - reflexivity.
Qed.

End Serve.

(** ** The claims about whole requests *)

Lemma mem_false (x : string) (l : list string) : x ∉ l → Str.mem x l = false.
Proof.
  unfold Str.mem. induction l as [|y l IH]; intros H; [reflexivity|].
  apply not_elem_of_cons in H as [Hne Hl]. simpl.
  destruct (String.eqb_spec x y); [done|]. by apply IH.
Qed.

Lemma own_property_none (props : list (string * Preset)) (key : string) :
  key ∉ Object_keys props → own_property props key = None.
Proof.
  unfold Object_keys. induction props as [|[k p] rest IH]; intros H; [reflexivity|].
  simpl in *. apply not_elem_of_cons in H as [Hne Hl].
  destruct (String.eqb_spec k key); [by subst | by apply IH].
Qed.

(** C8: [cleanupFiles] returns normally from every world, whatever the paths,
    existing or not, and whichever deletions the environment refuses; so does a
    second call; a second call under the same environment leaves the scratch
    directory as the first one left it; a refused deletion of an existing file
    is in the log; and the response of a request does not depend on which
    deletions fail. *)
Theorem cleanup_total_idempotent (env env' : Env) (paths : list string) (w : World) :
  let w1 := snd (cleanupFiles env paths w) in
  let w2 := snd (cleanupFiles env' paths w1) in
  cleanupFiles env paths w = (Val tt, w1) ∧
  cleanupFiles env' paths w1 = (Val tt, w2) ∧
  files (snd (cleanupFiles env paths w1)) = files w1 ∧
  Forall (fun p => if bool_decide (p ∈ files w) && unlink_fails env p
                   then existsb (is_cleanup_failure p) (logs w1) = true
                   else True) paths ∧
  ∀ route req fs u,
    fst (serve route (with_unlink env u) req fs) = fst (serve route env req fs).
Proof.
  intros w1 w2. split; [apply cleanupFiles_val|]. split; [apply cleanupFiles_val|].
  split; [|split].
  - subst w1. rewrite !cleanupFiles_files. set_solver.
  - apply Forall_forall. intros p Hp.
    destruct (bool_decide (p ∈ files w)) eqn:Hin; [|exact I].
    destruct (unlink_fails env p) eqn:Hfail; [|exact I]. simpl.
    apply bool_decide_eq_true_1 in Hin.
    by apply cleanupFiles_failure_logged.
  - intros route req fs u.
    destruct (accepted_upload env req) as [file|] eqn:H;
      [|by apply serve_refused_response].
    destruct route.
    + rewrite (serve_thumbnail_response_gen env req fs file H).
      rewrite (serve_thumbnail_response_gen (with_unlink env u) req fs file H).
      reflexivity.
    + rewrite (serve_convert_response env req fs file H).
      rewrite (serve_convert_response (with_unlink env u) req fs file H).
      reflexivity.
Qed.

(** C9: the processes a [/convert] request launches are, in order, none, or
    the palette pass alone when it did not succeed, or the palette pass
    followed by the encoding pass when the palette pass succeeded.  The palette
    pass runs under half of [FFMPEG_TIMEOUT], the encoding pass under the whole
    of it, and the encoding command reads, as its second input, the file the
    palette command writes. *)
Theorem convert_stage_order (env : Env) (req : Request) (fs : gset string) :
  match launched (snd (serve Convert env req fs)) with
  | [] => True
  | [(c1, t1)] =>
      succeeded (outcome env c1 t1) = false ∧
      t1 = FFMPEG_TIMEOUT / 2 ∧ t1 * 2 = FFMPEG_TIMEOUT ∧
      ∃ file quality head1,
        (c1, t1) = stage1 env file quality ∧
        c1 = head1 +:+ " -y " +:+ quoted (paletteFile_of env)
  | [(c1, t1); (c2, t2)] =>
      succeeded (outcome env c1 t1) = true ∧
      t1 = FFMPEG_TIMEOUT / 2 ∧ t1 * 2 = FFMPEG_TIMEOUT ∧ t2 = FFMPEG_TIMEOUT ∧
      ∃ file quality head1 head2 tail2,
        (c1, t1) = stage1 env file quality ∧
        (c2, t2) = stage2 env file quality ∧
        c1 = head1 +:+ " -y " +:+ quoted (paletteFile_of env) ∧
        c2 = head2 +:+ " -i " +:+ quoted (paletteFile_of env) +:+
             " -lavfi " +:+ tail2
  | _ => False
  end.
Proof.
  rewrite serve_launched.
  destruct (accepted_upload env req) as [file|]; [|exact I].
  unfold launches. destruct (truthy _); [|exact I].
  set (quality := quality_or_default (req_quality req)).
  destruct (succeeded (stage_outcome env (stage1 env file quality))) eqn:H1;
    unfold stage_outcome in H1; unfold stage1, stage2 in *; cbn [fst snd] in H1.
  - split; [exact H1|]. do 3 (split; [reflexivity|]).
    exists file, quality, (palette_head (path file) (get_preset quality)),
           ("ffmpeg -i " +:+ quoted (path file)),
           (encode_tail (get_preset quality) (outputPath_of env (filename file))).
    do 2 (split; [reflexivity|]).
    unfold paletteCmd, convertCmd, palette_head, encode_tail, quoted.
    split; rewrite !append_assoc; reflexivity.
  - split; [exact H1|]. do 2 (split; [reflexivity|]).
    exists file, quality, (palette_head (path file) (get_preset quality)).
    split; [reflexivity|].
    unfold paletteCmd, palette_head, quoted. rewrite !append_assoc. reflexivity.
Qed.

Lemma launches_outcomes (route : Route) (env : Env) (file : StoredFile)
    (q : option string) (stage : string * N) :
  stage ∈ launches route env file q →
  succeeded (stage_outcome env stage) = false →
  match route with
  | Thumbnail => stage = thumbnail_stage env file
  | Convert =>
      truthy (get_preset (quality_or_default q)) = true ∧
      (stage = stage1 env file (quality_or_default q) ∨
       succeeded (stage_outcome env (stage1 env file (quality_or_default q))) = true ∧
       stage = stage2 env file (quality_or_default q))
  end.
Proof.
  unfold launches. destruct route.
  - intros H _. by apply list_elem_of_singleton in H.
  - destruct (truthy _); [|by intros H%elem_of_nil].
    destruct (succeeded (stage_outcome env (stage1 env file _))) eqn:H1.
    + intros H Hs. split; [done|].
      apply elem_of_cons in H as [->|H]; [congruence|].
      apply list_elem_of_singleton in H. auto.
    + intros H _. apply list_elem_of_singleton in H. auto.
Qed.

(** C3 (amended): when a launched process of a request is still running as its
    timer fires, a [/convert] request is answered with the 408
    [Conversion timeout] response and a [/thumbnail] request with the 500
    [Failed to generate thumbnail] response; when a launched process fails by
    itself with an error message that does not contain [timeout], the
    response has status 500. *)
Theorem stage_timeout_status (route : Route) (env : Env) (req : Request)
    (fs : gset string) (stage : string * N) :
  stage ∈ launched (snd (serve route env req fs)) →
  (overran (stage_outcome env stage) = true →
   fst (serve route env req fs) =
   match route with
   | Convert => convert_timeout
   | Thumbnail => thumbnail_failure (new_Error "FFmpeg execution timeout")
   end) ∧
  (failed_by_itself (stage_outcome env stage) = true →
   Str.includes (exec_error_message (fst stage) (stage_outcome env stage)) "timeout"
     = false →
   status_of (fst (serve route env req fs)) = Some 500).
Proof.
  rewrite serve_launched. intros Hin.
  destruct (accepted_upload env req) as [file|] eqn:Hacc; [|by apply elem_of_nil in Hin].
  assert (Hcase : ∀ o, stage_outcome env stage = o → succeeded o = false →
    match route with
    | Thumbnail =>
        fst (serve route env req fs) =
        thumbnail_failure (new_Error (exec_error_message (fst stage) o))
    | Convert =>
        fst (serve route env req fs) =
        convert_error_response (new_Error (exec_error_message (fst stage) o))
    end).
  { intros o Ho Hs. rewrite <- Ho in Hs.
    pose proof (launches_outcomes route env file _ stage Hin Hs) as H.
    destruct route.
    - subst stage. rewrite (serve_thumbnail_response_gen env req fs file Hacc), Hs.
      unfold stage_error. by rewrite <- Ho.
    - destruct H as [Ht [-> | [H1 ->]]];
        rewrite (serve_convert_response env req fs file Hacc), Ht.
      + rewrite Hs. unfold stage_error. by rewrite <- Ho.
      + rewrite H1, Hs. unfold stage_error. by rewrite <- Ho. }
  split.
  - intros Ho. destruct (stage_outcome env stage) eqn:E; try discriminate Ho.
    specialize (Hcase _ eq_refl eq_refl). destruct route; exact Hcase.
  - intros Ho Hmsg.
    destruct (stage_outcome env stage) eqn:E; try discriminate Ho.
    + specialize (Hcase _ eq_refl eq_refl). destruct route; rewrite Hcase;
        [reflexivity|]. unfold convert_error_response. cbn [message new_Error].
      by rewrite Hmsg.
    + specialize (Hcase _ eq_refl eq_refl). destruct route; rewrite Hcase;
        [reflexivity|]. unfold convert_error_response. cbn [message new_Error].
      by rewrite Hmsg.
Qed.

(** C3, as stated, fails: a [/thumbnail] request whose extraction process
    overruns its 30 seconds is answered with status 500, not 408. *)
Lemma thumbnail_timeout_is_500 :
  ¬ (∀ (route : Route) (env : Env) (req : Request) (fs : gset string)
       (stage : string * N),
       stage ∈ launched (snd (serve route env req fs)) →
       overran (stage_outcome env stage) = true →
       status_of (fst (serve route env req fs)) = Some 408).
Proof.
  intros H.
  specialize (H Thumbnail (Scenario.server Scenario.never_ends)
                (Scenario.request Scenario.clip None) ∅
                (thumbnail_stage (Scenario.server Scenario.never_ends)
                   (stored_file (Scenario.server Scenario.never_ends) Scenario.clip))).
  assert (status_of (fst (serve Thumbnail (Scenario.server Scenario.never_ends)
                            (Scenario.request Scenario.clip None) ∅)) = Some 500)
    as H500 by (vm_compute; reflexivity).
  rewrite H500 in H. 
  assert (Some 500 = Some 408) as Habs; [|discriminate Habs].
  apply H; [|reflexivity].
  rewrite serve_launched. vm_compute. left.
Qed.

Lemma stage_timeout_status_witness :
  fst (serve Convert (Scenario.server Scenario.never_ends)
         (Scenario.request Scenario.clip (Some "high")) ∅) = convert_timeout ∧
  status_of (fst (serve Convert (Scenario.server Scenario.rejects_input)
                    (Scenario.request Scenario.clip (Some "high")) ∅)) = Some 500.
Proof.
  split.
  - apply (stage_timeout_status Convert (Scenario.server Scenario.never_ends)
             (Scenario.request Scenario.clip (Some "high")) ∅
             (stage1 (Scenario.server Scenario.never_ends)
                (stored_file (Scenario.server Scenario.never_ends) Scenario.clip) "high")).
    + vm_compute. left.
    + reflexivity.
  - apply (stage_timeout_status Convert (Scenario.server Scenario.rejects_input)
             (Scenario.request Scenario.clip (Some "high")) ∅
             (stage1 (Scenario.server Scenario.rejects_input)
                (stored_file (Scenario.server Scenario.rejects_input) Scenario.clip) "high")).
    + vm_compute. left.
    + reflexivity.
    + vm_compute. reflexivity.
Defined.

(** C5 (amended): a [/convert] request with an accepted upload whose quality
    field is a non-empty string, none of [low], [medium], [high] and not a
    property name of [Object.prototype], is answered with the 400 response
    whose [allowed] field is the list [low], [medium], [high], and launches no
    process; a request without the field, or with the empty string in it, is
    served as a request for [medium]. *)
Theorem unknown_quality_rejected (env : Env) (req : Request) (fs : gset string)
    (file : StoredFile) (q : string) :
  accepted_upload env req = Some file →
  req_quality req = Some q →
  q ≠ EmptyString →
  q ∉ ["low"; "medium"; "high"] →
  q ∉ Object_prototype_names →
  fst (serve Convert env req fs) =
    JsonResponse 400 [("error", JStr "Invalid quality setting");
                      ("allowed", JArr ["low"; "medium"; "high"])] ∧
  launched (snd (serve Convert env req fs)) = [] ∧
  serve Convert env {| req_file := req_file req; req_quality := None |} fs =
    serve Convert env {| req_file := req_file req; req_quality := Some "medium" |} fs ∧
  serve Convert env {| req_file := req_file req; req_quality := Some EmptyString |} fs =
    serve Convert env {| req_file := req_file req; req_quality := Some "medium" |} fs.
Proof.
  intros Hacc Hq Hne Hown Hproto.
  assert (quality_or_default (req_quality req) = q) as Hdef.
  { rewrite Hq. unfold quality_or_default.
    destruct (String.eqb_spec q EmptyString); [done | reflexivity]. }
  assert (get_preset q = UndefinedValue) as Hget.
  { unfold get_preset. rewrite (own_property_none QUALITY_PRESETS q Hown).
    by rewrite (mem_false q _ Hproto). }
  split; [|split; [|split]].
  - rewrite (serve_convert_response env req fs file Hacc), Hdef, Hget. reflexivity.
  - rewrite serve_launched, Hacc. unfold launches. by rewrite Hdef, Hget.
  - reflexivity.
  - reflexivity.
Qed.

(** C5, as stated, fails: the quality field is present and holds the empty
    string, which is none of [low], [medium], [high]; the request is not
    answered with status 400 but converted with the preset [medium]. *)
Lemma empty_quality_not_rejected :
  ¬ (∀ (env : Env) (req : Request) (fs : gset string) (file : StoredFile) (q : string),
       accepted_upload env req = Some file →
       req_quality req = Some q →
       q ∉ ["low"; "medium"; "high"] →
       status_of (fst (serve Convert env req fs)) = Some 400).
Proof.
  intros H.
  specialize (H (Scenario.server Scenario.all_succeed)
                (Scenario.request Scenario.clip (Some EmptyString)) ∅
                (stored_file (Scenario.server Scenario.all_succeed) Scenario.clip)
                EmptyString eq_refl eq_refl).
  assert (status_of (fst (serve Convert (Scenario.server Scenario.all_succeed)
                            (Scenario.request Scenario.clip (Some EmptyString)) ∅))
          = Some 200) as H200 by (vm_compute; reflexivity).
  rewrite H200 in H.
  assert (Some 200 = Some 400) as Habs; [|discriminate Habs].
  apply H. intros Hin. repeat (apply elem_of_cons in Hin as [Hin|Hin]; [discriminate Hin|]).
  by apply elem_of_nil in Hin.
Qed.

Lemma unknown_quality_rejected_witness :
  fst (serve Convert (Scenario.server Scenario.all_succeed)
         (Scenario.request Scenario.clip (Some "ultra")) ∅) =
    JsonResponse 400 [("error", JStr "Invalid quality setting");
                      ("allowed", JArr ["low"; "medium"; "high"])] ∧
  launched (snd (serve Convert (Scenario.server Scenario.all_succeed)
                   (Scenario.request Scenario.clip (Some "ultra")) ∅)) = [].
Proof.
  pose proof (unknown_quality_rejected (Scenario.server Scenario.all_succeed)
                (Scenario.request Scenario.clip (Some "ultra")) ∅
                (stored_file (Scenario.server Scenario.all_succeed) Scenario.clip)
                "ultra" eq_refl eq_refl) as H.
  destruct H as [H1 [H2 _]].
  - discriminate.
  - apply (bool_decide_eq_false_1 _). vm_compute. reflexivity.
  - apply (bool_decide_eq_false_1 _). vm_compute. reflexivity.
  - split; [exact H1 | exact H2].
Defined.

(** The same validation lets a property name of [Object.prototype] through:
    the request is converted with [undefined] parameters. *)
Example inherited_name_passes_validation :
  launched (snd (serve Convert (Scenario.server Scenario.rejects_input)
                   (Scenario.request Scenario.clip (Some "constructor")) ∅)) =
  [("ffmpeg -i " +:+ quoted Scenario.input +:+ " -vf " +:+
    quoted "fps=undefined,scale=undefined:-1:flags=lanczos,palettegen=max_colors=undefined"
    +:+ " -y " +:+ quoted Scenario.palette, 60000)].
Proof. vm_compute. reflexivity. Qed.

(** A conversion that succeeds sends the GIF and leaves nothing behind. *)
Example successful_conversion_cleans_up :
  fst (serve Convert (Scenario.server Scenario.all_succeed)
         (Scenario.request Scenario.clip None) ∅) = FileResponse Scenario.gif ∧
  elements (files (snd (serve Convert (Scenario.server Scenario.all_succeed)
                          (Scenario.request Scenario.clip None) ∅))) = [].
Proof. split; vm_compute; reflexivity. Qed.

(** The message of a failed command holds the command line, hence the name of
    the upload: a rejected input named [timeout.mp4] is answered with 408. *)
Example failure_named_timeout_is_408 :
  fst (serve Convert (Scenario.server Scenario.rejects_input)
         (Scenario.request Scenario.timeout_clip None) ∅) = convert_timeout.
Proof. vm_compute. reflexivity. Qed.

(** An upload whose declared type is outside the allow-list never reaches a
    route handler: the global error handler answers 500 and nothing is
    launched. *)
Lemma refused_type_response (route : Route) (env : Env) (req : Request)
    (fs : gset string) (file : UploadedFile) :
  req_file req = Some file →
  Str.mem (mimetype file) ALLOWED_MIME_TYPES = false →
  status_of (fst (serve route env req fs)) = Some 500 ∧
  launched (snd (serve route env req fs)) = [].
Proof.
  intros Hfile Hmime. unfold serve, upload_single, fileFilter.
  rewrite Hfile, Hmime. split; reflexivity.
Qed.

(** C2: an upload declared as [image/png] is answered, on both routes, with
    status 500 and the body of an internal server error; no process is
    launched. *)
Theorem refused_type_is_500 :
  let env := Scenario.server Scenario.all_succeed in
  let req := Scenario.request Scenario.picture None in
  let internal_error :=
    JsonResponse 500
      [("error", JStr "Internal server error");
       ("details", JStr ("Invalid file type. Allowed types: " +:+
                         "video/mp4, video/quicktime, video/x-msvideo, " +:+
                         "video/x-matroska, video/webm, video/mpeg"))] in
  Str.mem (mimetype Scenario.picture) ALLOWED_MIME_TYPES = false ∧
  fst (serve Convert env req ∅) = internal_error ∧
  launched (snd (serve Convert env req ∅)) = [] ∧
  fst (serve Thumbnail env req ∅) = internal_error ∧
  launched (snd (serve Thumbnail env req ∅)) = [].
Proof. repeat split; vm_compute; reflexivity. Qed.

(** C4: when ffmpeg rejects the input, the body of the 500 response of
    [/convert] and of [/thumbnail] holds the path of the input file. *)
Theorem failure_body_holds_input_path :
  let env := Scenario.server Scenario.rejects_input in
  let req := Scenario.request Scenario.clip (Some "medium") in
  path (stored_file env Scenario.clip) = "/usr/src/app/uploads/1700000000000-my_clip.mp4" ∧
  status_of (fst (serve Convert env req ∅)) = Some 500 ∧
  existsb (fun s => Str.includes s (path (stored_file env Scenario.clip)))
          (body_strings (fst (serve Convert env req ∅))) = true ∧
  status_of (fst (serve Thumbnail env req ∅)) = Some 500 ∧
  existsb (fun s => Str.includes s (path (stored_file env Scenario.clip)))
          (body_strings (fst (serve Thumbnail env req ∅))) = true.
Proof. repeat split; vm_compute; reflexivity. Qed.

(** ** Artifact names *)

Section Names.

Implicit Types (s t p e : string) (c : ascii).

Lemma of_uint_digits (d : Decimal.uint) :
  Str.all Str.is_digit (NilEmpty.string_of_uint d) = true.
Proof. induction d; simpl; [reflexivity | exact IHd ..]. Qed.

Lemma of_N_digits (n : N) : Str.all Str.is_digit (Str.of_N n) = true.
Proof. apply of_uint_digits. Qed.

Lemma of_N_inj (n m : N) : Str.of_N n = Str.of_N m → n = m.
Proof.
  unfold Str.of_N. intros H. apply Unsigned.to_uint_inj.
  apply (f_equal NilEmpty.uint_of_string) in H.
  rewrite !NilEmpty.usu in H. by injection H.
Qed.

Lemma of_N_nonempty (n : N) : ∃ c r, Str.of_N n = String c r ∧ Str.is_digit c = true.
Proof.
  pose proof (of_N_digits n) as Hd.
  destruct (Str.of_N n) as [|c r] eqn:E.
  - exfalso. unfold Str.of_N in E.
    apply (f_equal NilEmpty.uint_of_string) in E. rewrite NilEmpty.usu in E.
    simpl in E. injection E as E. destruct n as [|q]; [discriminate E|].
    simpl in E. by apply DecimalPos.Unsigned.to_uint_nonnil in E.
  - simpl in Hd. apply andb_true_iff in Hd as [Hc _]. eauto.
Qed.

Lemma leading_digits_stop d c r :
  Str.all Str.is_digit d = true → Str.is_digit c = false →
  Str.leading_digits (d +:+ String c r) = d.
Proof.
  intros Hd Hc. induction d as [|a d IH].
  - rewrite append_nil. simpl. by rewrite Hc.
  - simpl in Hd. apply andb_true_iff in Hd as [Ha Hd].
    rewrite append_cons. simpl. rewrite Ha. by rewrite IH.
Qed.

(** A name that starts with a timestamp and a dash tells its timestamp. *)
Lemma stamped_inj (n m : N) s t :
  Str.of_N n +:+ "-" +:+ s = Str.of_N m +:+ "-" +:+ t → n = m.
Proof.
  intros H. apply of_N_inj.
  rewrite <- (leading_digits_stop (Str.of_N n) "-" s) by (apply of_N_digits || reflexivity).
  rewrite <- (leading_digits_stop (Str.of_N m) "-" t) by (apply of_N_digits || reflexivity).
  by f_equal.
Qed.

Lemma stamped_png_inj (n m : N) :
  Str.of_N n +:+ ".png" = Str.of_N m +:+ ".png" → n = m.
Proof.
  intros H. apply of_N_inj.
  rewrite <- (leading_digits_stop (Str.of_N n) "." "png") by (apply of_N_digits || reflexivity).
  rewrite <- (leading_digits_stop (Str.of_N m) "." "png") by (apply of_N_digits || reflexivity).
  by f_equal.
Qed.

Lemma from_last_dot_skip p s :
  Str.all not_dot p = true → Path.from_last_dot (p +:+ s) = Path.from_last_dot s.
Proof.
  induction p as [|c p IH]; intros H; [reflexivity|].
  simpl in H. apply andb_true_iff in H as [Hc Hp].
  rewrite append_cons. simpl. rewrite (IH Hp).
  destruct (Path.from_last_dot s); [reflexivity|].
  unfold not_dot in Hc. by destruct (Ascii.eqb c ".").
Qed.

Lemma from_last_dot_split s e :
  Path.from_last_dot s = Some e →
  ∃ s0 e', s = s0 +:+ e ∧ e = String "." e'.
Proof.
  revert e. induction s as [|c s IH]; intros e; simpl; [discriminate|].
  destruct (Path.from_last_dot s) as [e0|].
  - intros [= <-]. destruct (IH e0 eq_refl) as (s0 & e' & -> & He).
    exists (String c s0), e'. by rewrite append_cons.
  - destruct (Ascii.eqb_spec c "."); [|discriminate].
    intros [= <-]. subst c. exists EmptyString, s. by rewrite append_nil.
Qed.

Lemma eqb_length_neq s t :
  String.length s ≠ String.length t → String.eqb s t = false.
Proof. intros H. destruct (String.eqb_spec s t); [by subst | reflexivity]. Qed.

Lemma strip_suffix_append s e : Str.strip_suffix e (s +:+ e) = Some s.
Proof.
  induction s as [|c s IH].
  - rewrite append_nil. destruct e; simpl; by rewrite ?String.eqb_refl, ?Ascii.eqb_refl.
  - rewrite append_cons.
    change (Str.strip_suffix e (String c (s +:+ e))) with
      (if String.eqb (String c (s +:+ e)) e then Some EmptyString
       else option_map (String c) (Str.strip_suffix e (s +:+ e))).
    rewrite eqb_length_neq, IH; [reflexivity|].
    simpl. rewrite length_append. lia.
Qed.

(** Removing the extension keeps a leading part that holds no dot. *)
Lemma base_of_keeps_prefix c p s :
  Str.all not_dot (String c p) = true →
  ∃ s', base_of (String c p +:+ s) = String c p +:+ s'.
Proof.
  intros Hp. unfold base_of, Path.extname.
  rewrite (from_last_dot_skip _ s Hp).
  destruct (Path.from_last_dot s) as [e|] eqn:He.
  - destruct (from_last_dot_split s e He) as (s0 & e' & -> & ->).
    set (e := String "." e'). set (name := String c p +:+ s0 +:+ e).
    assert (String.length e < String.length name)%nat as Hlen.
    { unfold name. rewrite !length_append. simpl. lia. }
    rewrite (eqb_length_neq e name) by lia.
    assert (String.eqb name ".." = false) as ->.
    { unfold name. rewrite append_cons. simpl in Hp.
      apply andb_true_iff in Hp as [Hc _]. unfold not_dot in Hc. simpl.
      by destruct (Ascii.eqb c "."). }
    unfold Path.basename.
    replace (String.length e =? 0)%nat with false by reflexivity.
    replace (String.length name <? String.length e)%nat with false
      by (symmetry; apply Nat.ltb_ge; lia).
    rewrite (eqb_length_neq e name) by lia.
    unfold name. rewrite <- append_assoc, strip_suffix_append. eauto.
  - exists s. reflexivity.
Qed.

Lemma digits_dash_no_dot s :
  Str.all Str.is_digit s = true → Str.all not_dot (s +:+ "-") = true.
Proof.
  induction s as [|a s IH]; [reflexivity|].
  simpl. intros [Ha Hs]%andb_true_iff. rewrite ?append_cons. simpl.
  rewrite (IH Hs), andb_true_r.
  destruct a as [[] [] [] [] [] [] [] []]; try discriminate Ha; reflexivity.
Qed.

Lemma stamp_no_dot (n : N) : ∃ c p,
  Str.of_N n +:+ "-" = String c p ∧ Str.all not_dot (String c p) = true ∧
  Str.is_digit c = true.
Proof.
  destruct (of_N_nonempty n) as (c & r & E & Hc).
  exists c, (r +:+ "-"). rewrite <- append_cons, <- E.
  split; [reflexivity|]. split; [|exact Hc].
  apply digits_dash_no_dot, of_N_digits.
Qed.

(** The base of a stored filename still starts with the timestamp. *)
Lemma base_of_stamped (n : N) s :
  ∃ s', base_of (Str.of_N n +:+ "-" +:+ s) = Str.of_N n +:+ "-" +:+ s'.
Proof.
  destruct (stamp_no_dot n) as (c & p & E & Hp & _).
  destruct (base_of_keeps_prefix c p s Hp) as [s' Hs']. exists s'.
  rewrite <- !append_assoc, E. exact Hs'.
Qed.

End Names.

(** ** Artifact paths of two requests *)

Lemma join_inj (dir a b : string) : Path.join dir a = Path.join dir b → a = b.
Proof.
  unfold Path.join. intros H. apply append_cancel_l in H.
  by apply (append_cancel_l "/") in H.
Qed.

Lemma stamped_head (n : N) (x : string) (c : ascii) (y : string) :
  Str.of_N n +:+ x = String c y → Str.is_digit c = true.
Proof.
  destruct (of_N_nonempty n) as (d & r & -> & Hd).
  rewrite append_cons. by intros [= <- _].
Qed.

(** The four artifact names of a request: two start with the upload timestamp
    and a dash, the palette name holds the palette timestamp, the thumbnail
    name holds the upload timestamp after its prefix. *)
Lemma artifact_names (env : Env) (file : UploadedFile) :
  ∃ a b c,
    artifact_paths env file =
    [ Path.join (uploadDir env) (Str.of_N (now_upload env) +:+ "-" +:+ a);
      Path.join (uploadDir env) ("palette-" +:+ Str.of_N (now_palette env) +:+ ".png");
      Path.join (uploadDir env) (Str.of_N (now_upload env) +:+ "-" +:+ b);
      Path.join (uploadDir env) ("thumb-" +:+ Str.of_N (now_upload env) +:+ "-" +:+ c) ].
Proof.
  unfold artifact_paths, outputPath_of, thumbnailPath_of, paletteFile_of, storage_filename.
  destruct (base_of_stamped (now_upload env) (sanitizeFilename (originalname file)))
    as [s' ->].
  exists (sanitizeFilename (originalname file)), (s' +:+ ".gif"), (s' +:+ ".jpg").
  by rewrite !append_assoc.
Qed.

Ltac names_differ :=
  let H := fresh "H" in
  intros H; apply join_inj in H;
  first
    [ apply stamped_inj in H; contradiction
    | apply (append_cancel_l "thumb-") in H; apply stamped_inj in H; contradiction
    | apply (append_cancel_l "palette-") in H; apply stamped_png_inj in H; contradiction
    | apply stamped_head in H; discriminate H
    | symmetry in H; apply stamped_head in H; discriminate H
    | discriminate H ].

(** C6 (amended): when the upload timestamps of two requests differ and their
    palette timestamps differ, every artifact path (input, palette, output,
    thumbnail) of one request differs from every artifact path of the other. *)
Theorem paths_differ_when_clocks_differ (env1 env2 : Env) (file1 file2 : UploadedFile) :
  dirname env1 = dirname env2 →
  now_upload env1 ≠ now_upload env2 →
  now_palette env1 ≠ now_palette env2 →
  Forall (fun a => Forall (fun b => a ≠ b) (artifact_paths env2 file2))
         (artifact_paths env1 file1).
Proof.
  intros Hdir Hup Hpal.
  destruct (artifact_names env1 file1) as (a1 & b1 & c1 & ->).
  destruct (artifact_names env2 file2) as (a2 & b2 & c2 & ->).
  unfold uploadDir. rewrite Hdir.
  repeat match goal with |- Forall _ _ => constructor end; names_differ.
Qed.

(** C6, as stated, fails: two different uploads that reach the server within
    the same millisecond and whose names sanitize to the same string get the
    same input path. *)
Lemma same_millisecond_same_path :
  ¬ (∀ (env1 env2 : Env) (file1 file2 : UploadedFile),
       dirname env1 = dirname env2 →
       file1 ≠ file2 →
       Forall (fun a => Forall (fun b => a ≠ b) (artifact_paths env2 file2))
              (artifact_paths env1 file1)).
Proof.
  intros H.
  specialize (H (Scenario.server Scenario.all_succeed)
                (Scenario.server Scenario.all_succeed)
                Scenario.clip Scenario.other_clip eq_refl).
  assert (Scenario.clip ≠ Scenario.other_clip) as Hne by discriminate.
  specialize (H Hne).
  apply Forall_cons in H as [H _]. apply Forall_cons in H as [H _].
  apply H. vm_compute. reflexivity.
Qed.

Lemma paths_differ_when_clocks_differ_witness :
  Forall (fun a => Forall (fun b => a ≠ b)
            (artifact_paths (Scenario.server_later Scenario.all_succeed)
                            Scenario.other_clip))
         (artifact_paths (Scenario.server Scenario.all_succeed) Scenario.clip).
Proof.
  apply (paths_differ_when_clocks_differ
           (Scenario.server Scenario.all_succeed)
           (Scenario.server_later Scenario.all_succeed)
           Scenario.clip Scenario.other_clip).
  - reflexivity.
  - simpl. lia.
  - simpl. lia.
Defined.

(** ** The palette file on the failure path *)

Lemma accepted_upload_stored (env : Env) (req : Request) (file : StoredFile) :
  accepted_upload env req = Some file →
  ∃ upload, file = stored_file env upload.
Proof.
  unfold accepted_upload. destruct (req_file req) as [upload|]; [|discriminate].
  destruct (_ && _); [|discriminate]. intros [= <-]. by exists upload.
Qed.

Lemma palette_is_no_other_artifact (env : Env) (upload : UploadedFile) :
  paletteFile_of env ≠ path (stored_file env upload) ∧
  paletteFile_of env ≠ outputPath_of env (filename (stored_file env upload)).
Proof.
  destruct (artifact_names env upload) as (a & b & c & H).
  unfold artifact_paths in H. injection H as Hin Hout Hth.
  cbn [stored_file path filename]. rewrite Hin, Hout. unfold paletteFile_of.
  split; intros E; apply join_inj in E; symmetry in E;
    apply stamped_head in E; discriminate E.
Qed.

(** Whenever the palette pass succeeds and has written the palette file, and
    the encoding pass fails, the palette file outlives the request. *)
Lemma palette_survives_failed_encoding (env : Env) (req : Request)
    (fs : gset string) (file : StoredFile) :
  let quality := quality_or_default (req_quality req) in
  let s1 := stage1 env file quality in
  let s2 := stage2 env file quality in
  accepted_upload env req = Some file →
  truthy (get_preset quality) = true →
  succeeded (stage_outcome env s1) = true →
  succeeded (stage_outcome env s2) = false →
  paletteFile_of env ∈ snd (exec_behaviour env (fst s1) (snd s1)) →
  paletteFile_of env ∈ files (snd (serve Convert env req fs)).
Proof.
  intros quality s1 s2 Hacc Ht H1 H2 Hw.
  destruct (serve_accepted env Convert req fs file Hacc) as [r [Hrun _]].
  unfold handler in Hrun. rewrite convert_handler_run in Hrun.
  fold quality s1 s2 in Hrun. rewrite Ht, H1, H2, convert_catch_run in Hrun.
  apply (f_equal snd) in Hrun. cbn [snd] in Hrun. rewrite <- Hrun.
  rewrite cleanupFiles_files.
  destruct (accepted_upload_stored env req file Hacc) as [upload ->].
  destruct (palette_is_no_other_artifact env upload) as [Hi Ho].
  apply elem_of_difference. split.
  - cbn [after_log after_exec files]. set_solver.
  - rewrite elem_of_list_to_set. intros Hin%list_elem_of_filter.
    destruct Hin as [_ Hin].
    apply elem_of_cons in Hin as [Hin|Hin]; [done|].
    apply list_elem_of_singleton in Hin. done.
Qed.

(** C1: a [/convert] request whose palette pass succeeds and whose encoding
    pass fails is answered with status 500 while the palette file is still in
    the scratch directory. *)
Theorem failed_encoding_leaves_palette :
  status_of (fst (serve Convert (Scenario.server Scenario.encode_fails)
                    (Scenario.request Scenario.clip (Some "medium")) ∅)) = Some 500 ∧
  elements (files (snd (serve Convert (Scenario.server Scenario.encode_fails)
                          (Scenario.request Scenario.clip (Some "medium")) ∅)))
    = [paletteFile_of (Scenario.server Scenario.encode_fails)].
Proof. split; vm_compute; reflexivity. Qed.

(** * Further properties of the server *)

(** ** The scratch directory at the end of a request *)

Section FinalFiles.

Variable env : Env.


Lemma after_send_files what artifacts err (w : World) :
  files (snd (after_send env what artifacts err w)) =
  files w ∖ releasable env artifacts.
Proof.
  unfold after_send, releasable. destruct err as [e|].
  - erewrite bind_run by apply logger_error_run. by rewrite cleanupFiles_files.
  - erewrite bind_run by reflexivity. by rewrite cleanupFiles_files.
Qed.

Lemma serve_world_accepted (route : Route) (req : Request) (fs : gset string)
    (file : StoredFile) :
  accepted_upload env req = Some file →
  snd (serve route env req fs) =
  snd (handler route env req (Some file) (after_store file (init_world fs))).
Proof.
  intros H. destruct (serve_accepted env route req fs file H) as [r [Hrun _]].
  by rewrite Hrun.
Qed.

Lemma serve_world_refused (route : Route) (req : Request) (fs : gset string) :
  accepted_upload env req = None →
  files (snd (serve route env req fs)) = fs.
Proof.
  intros H. unfold serve.
  destruct (upload_single_refused env req (init_world fs) H) as [-> | [error ->]].
  - destruct route; reflexivity.
  - unfold error_handler. destruct (error_class error) as [|code].
    + erewrite bind_run by apply logger_error_run. reflexivity.
    + erewrite bind_run by apply logger_error_run.
      destruct (String.eqb code "LIMIT_FILE_SIZE"); reflexivity.
Qed.

Lemma thumbnail_final_files (req : Request) (fs : gset string) (file : StoredFile) :
  accepted_upload env req = Some file →
  files (snd (serve Thumbnail env req fs)) =
  (fs ∪ {[ path file ]} ∪ written env (thumbnail_stage env file))
    ∖ releasable env [path file; thumbnailPath_of env (filename file)].
Proof.
  intros H. rewrite (serve_world_accepted Thumbnail req fs file H).
  unfold handler. rewrite thumbnail_handler_run. destruct (succeeded _).
  - rewrite sendFile_run. cbn [snd]. by rewrite after_send_files.
  - rewrite thumbnail_catch_run. cbn [snd]. by rewrite cleanupFiles_files.
Qed.

Lemma convert_final_files (req : Request) (fs : gset string) (file : StoredFile) :
  let quality := quality_or_default (req_quality req) in
  let s1 := stage1 env file quality in
  let s2 := stage2 env file quality in
  let i := path file in
  let o := outputPath_of env (filename file) in
  accepted_upload env req = Some file →
  files (snd (serve Convert env req fs)) =
  if truthy (get_preset quality) then
    if succeeded (stage_outcome env s1) then
      if succeeded (stage_outcome env s2) then
        (fs ∪ {[ i ]} ∪ written env s1 ∪ written env s2)
          ∖ releasable env [i; o; paletteFile_of env]
      else (fs ∪ {[ i ]} ∪ written env s1 ∪ written env s2) ∖ releasable env [i; o]
    else (fs ∪ {[ i ]} ∪ written env s1) ∖ releasable env [i; o]
  else fs ∪ {[ i ]}.
Proof.
  intros quality s1 s2 i o H. rewrite (serve_world_accepted Convert req fs file H).
  unfold handler. rewrite convert_handler_run. fold quality s1 s2 i o.
  destruct (truthy _); [|reflexivity].
  destruct (succeeded (stage_outcome env s1)).
  - destruct (succeeded (stage_outcome env s2)).
    + rewrite sendFile_run. cbn [snd]. by rewrite after_send_files.
    + rewrite convert_catch_run. cbn [snd]. by rewrite cleanupFiles_files.
  - rewrite convert_catch_run. cbn [snd]. by rewrite cleanupFiles_files.
Qed.

End FinalFiles.





(** X3: a [/convert] request whose quality fails the validation is answered with
    the 400 response before any clean-up: the upload the middleware has stored
    stays in the scratch directory, and nothing is logged. *)
Theorem invalid_quality_keeps_upload (env : Env) (req : Request)
    (fs : gset string) (file : StoredFile) :
  accepted_upload env req = Some file →
  truthy (get_preset (quality_or_default (req_quality req))) = false →
  fst (serve Convert env req fs) = invalid_quality ∧
  files (snd (serve Convert env req fs)) = (fs ∪ {[ path file ]}) ∧
  logs (snd (serve Convert env req fs)) = [].
Proof.
  intros Hacc Ht. split; [|split].
  - by rewrite (serve_convert_response env req fs file Hacc), Ht.
  - by rewrite (convert_final_files env req fs file Hacc), Ht.
  - rewrite (serve_world_accepted env Convert req fs file Hacc).
    unfold handler. rewrite convert_handler_run, Ht. reflexivity.
Qed.

Lemma invalid_quality_keeps_upload_witness :
  elements (files (snd (serve Convert (Scenario.server Scenario.all_succeed)
                          (Scenario.request Scenario.clip (Some "ultra")) ∅)))
  = [Scenario.input].
Proof.
  pose proof (invalid_quality_keeps_upload
                (Scenario.server Scenario.all_succeed)
                (Scenario.request Scenario.clip (Some "ultra")) ∅
                (stored_file (Scenario.server Scenario.all_succeed) Scenario.clip)
                eq_refl eq_refl) as [_ [H _]].
  rewrite H. vm_compute. reflexivity.
Defined.

(** X4: a request deletes nothing but its own artifacts: a file that was in the
    scratch directory before the request and is none of the request's input,
    palette, output and thumbnail paths is still there afterwards. *)
Theorem other_files_untouched (route : Route) (env : Env) (req : Request)
    (fs : gset string) (p : string) :
  p ∈ fs →
  (∀ upload, req_file req = Some upload → p ∉ artifact_paths env upload) →
  p ∈ files (snd (serve route env req fs)).
Proof.
  intros Hp Hother.
  destruct (accepted_upload env req) as [file|] eqn:Hacc;
    [|by rewrite (serve_world_refused env route req fs Hacc)].
  assert (∃ upload, req_file req = Some upload ∧ file = stored_file env upload)
    as (upload & Hreq & ->).
  { unfold accepted_upload in Hacc. destruct (req_file req) as [u|]; [|discriminate].
    destruct (_ && _); [|discriminate]. injection Hacc as <-. eauto. }
  specialize (Hother upload Hreq). unfold artifact_paths in Hother.
  change (storage_filename env upload) with (filename (stored_file env upload)) in Hother.
  change (Path.join (uploadDir env) (filename (stored_file env upload)))
    with (path (stored_file env upload)) in Hother.
  assert (∀ l, l ⊆ [path (stored_file env upload); paletteFile_of env;
                    outputPath_of env (filename (stored_file env upload));
                    thumbnailPath_of env (filename (stored_file env upload))] →
               p ∉ releasable env l) as Hrel.
  { intros l Hl. unfold releasable. rewrite elem_of_list_to_set.
    intros [_ Hin]%list_elem_of_filter. apply Hother, Hl, Hin. }
  destruct route.
  - rewrite (thumbnail_final_files env req fs _ Hacc).
    apply elem_of_difference. split; [set_solver|]. apply Hrel. set_solver.
  - rewrite (convert_final_files env req fs _ Hacc).
    repeat case_match; try (apply elem_of_difference; split; [set_solver|]);
      try (apply Hrel; set_solver); set_solver.
Qed.

Lemma other_files_untouched_witness :
  Scenario2.bystander ∈
    files (snd (serve Convert (Scenario.server Scenario.encode_fails)
                  (Scenario.request Scenario.clip None) {[ Scenario2.bystander ]})).
Proof.
  apply (other_files_untouched Convert (Scenario.server Scenario.encode_fails)
           (Scenario.request Scenario.clip None) {[ Scenario2.bystander ]}
           Scenario2.bystander).
  - apply elem_of_singleton. reflexivity.
  - intros upload [= <-]. apply (bool_decide_eq_false_1 _). vm_compute. reflexivity.
Defined.

(** ** Requests the middleware stops, and the statuses of a route *)

(** X5: an upload of an allowed type that is larger than [MAX_FILE_SIZE] is
    answered, on both routes, with status 413 and the limit in megabytes; no
    file is stored and no process is launched. *)
Theorem oversize_upload_is_413 (route : Route) (env : Env) (req : Request)
    (fs : gset string) (upload : UploadedFile) :
  req_file req = Some upload →
  Str.mem (mimetype upload) ALLOWED_MIME_TYPES = true →
  MAX_FILE_SIZE < file_size upload →
  fst (serve route env req fs) =
    JsonResponse 413 [("error", JStr "File too large"); ("maxSize", JStr "100MB")] ∧
  files (snd (serve route env req fs)) = fs ∧
  launched (snd (serve route env req fs)) = [].
Proof.
  intros Hreq Hmime Hsize. apply N.ltb_lt in Hsize.
  unfold serve, upload_single, fileFilter. rewrite Hreq, Hmime, Hsize.
  repeat split.
Qed.

Lemma oversize_upload_is_413_witness :
  status_of (fst (serve Convert (Scenario.server Scenario.all_succeed)
                    (Scenario.request Scenario2.huge None) ∅)) = Some 413.
Proof.
  pose proof (oversize_upload_is_413 Convert (Scenario.server Scenario.all_succeed)
                (Scenario.request Scenario2.huge None) ∅ Scenario2.huge
                eq_refl eq_refl) as H.
  destruct H as [H _]; [reflexivity|]. rewrite H. reflexivity.
Defined.



(** X7: a request without a file is answered with the 400 response
    [No video file uploaded] on both routes, whatever its quality field; the
    scratch directory is untouched, nothing is logged or launched. *)
Theorem missing_file_is_400 (route : Route) (env : Env) (req : Request)
    (fs : gset string) :
  req_file req = None →
  serve route env req fs =
  (JsonResponse 400 [("error", JStr "No video file uploaded")], init_world fs).
Proof.
  intros Hreq. unfold serve, upload_single. rewrite Hreq.
  destruct route; reflexivity.
Qed.

Lemma missing_file_is_400_witness :
  status_of (fst (serve Convert (Scenario.server Scenario.all_succeed)
                    {| req_file := None; req_quality := Some "ultra" |} ∅)) = Some 400.
Proof.
  rewrite (missing_file_is_400 Convert (Scenario.server Scenario.all_succeed)
             {| req_file := None; req_quality := Some "ultra" |} ∅ eq_refl).
  reflexivity.
Defined.

(** X8: the statuses of the two routes: [/thumbnail] answers 200, 400, 413 or 500
    and never 408; [/convert] answers 200, 400, 408, 413 or 500; either may
    leave the request without a response when the transfer fails. *)
Theorem statuses_of_routes (route : Route) (env : Env) (req : Request)
    (fs : gset string) :
  status_of (fst (serve route env req fs)) ∈ route_statuses route.
Proof.
  destruct (accepted_upload env req) as [file|] eqn:Hacc.
  - destruct route.
    + rewrite (serve_thumbnail_response_gen env req fs file Hacc).
      destruct (succeeded _).
      * unfold send_response. destruct (send_failure _ _ _); cbn; set_solver.
      * cbn. set_solver.
    + rewrite (serve_convert_response env req fs file Hacc).
      destruct (truthy _); [|cbn; set_solver].
      destruct (succeeded _); [destruct (succeeded _)|].
      * unfold send_response. destruct (send_failure _ _ _); cbn; set_solver.
      * unfold convert_error_response. destruct (Str.includes _ _); cbn; set_solver.
      * unfold convert_error_response. destruct (Str.includes _ _); cbn; set_solver.
  - unfold accepted_upload in Hacc. unfold serve, upload_single, fileFilter.
    destruct (req_file req) as [upload|].
    + destruct (Str.mem (mimetype upload) ALLOWED_MIME_TYPES).
      * destruct (MAX_FILE_SIZE <? file_size upload); [|discriminate Hacc].
        destruct route; cbn; set_solver.
      * destruct route; cbn; set_solver.
    + destruct route; cbn; set_solver.
Qed.

(** X9: a [/thumbnail] request launches a process only for an accepted upload, and
    then exactly one: the extraction of a frame from the stored input into the
    thumbnail path, under a budget of 30 seconds. *)
Theorem thumbnail_launches_one_process (env : Env) (req : Request) (fs : gset string) :
  launched (snd (serve Thumbnail env req fs)) =
  match accepted_upload env req with
  | None => []
  | Some file =>
      [("ffmpeg -i " +:+ quoted (path file) +:+
        " -ss 00:00:01 -vframes 1 -vf " +:+ quoted "scale=320:-1" +:+
        " " +:+ quoted (thumbnailPath_of env (filename file)), 30000)]
  end.
Proof.
  rewrite serve_launched. destruct (accepted_upload env req) as [file|]; [|reflexivity].
  unfold launches, thumbnail_stage, thumbnailCmd, quoted.
  by rewrite !append_assoc.
Qed.

(** ** More on names and paths *)

Section MoreNames.

Implicit Types (s t e : string) (c : ascii).

Lemma all_append (f : ascii → bool) s t :
  Str.all f (s +:+ t) = Str.all f s && Str.all f t.
Proof.
  induction s as [|c s IH]; [reflexivity|].
  rewrite append_cons. simpl. by rewrite IH, andb_assoc.
Qed.

Lemma all_impl (f g : ascii → bool) s :
  (∀ c, f c = true → g c = true) → Str.all f s = true → Str.all g s = true.
Proof.
  intros Hfg. induction s as [|c s IH]; [reflexivity|]. simpl.
  intros [Hc Hs]%andb_true_iff. by rewrite (Hfg c Hc), (IH Hs).
Qed.

Lemma digit_in_class c : Str.is_digit c = true → in_class c = true.
Proof.
  unfold Str.is_digit, in_class. cbv zeta. intros ->.
  by rewrite !orb_true_r.
Qed.

Lemma sanitize_all_in_class s : Str.all in_class (sanitizeFilename s) = true.
Proof.
  unfold sanitizeFilename. induction s as [|c s IH]; [reflexivity|].
  simpl. by rewrite sanitize_char_in_class, IH.
Qed.

Lemma strip_suffix_some e s b : Str.strip_suffix e s = Some b → s = b +:+ e.
Proof.
  revert b. induction s as [|c s IH]; intros b.
  - simpl. destruct e; simpl; [by intros [= <-] | discriminate].
  - change (Str.strip_suffix e (String c s)) with
      (if String.eqb (String c s) e then Some EmptyString
       else option_map (String c) (Str.strip_suffix e s)).
    destruct (String.eqb_spec (String c s) e) as [<-|_].
    + by intros [= <-].
    + destruct (Str.strip_suffix e s) as [b'|]; [|discriminate].
      intros [= <-]. rewrite append_cons. f_equal. by apply IH.
Qed.

Lemma extname_cases s :
  Path.extname s = EmptyString ∨
  ∃ s0 e', s = s0 +:+ Path.extname s ∧ Path.extname s = String "." e' ∧
           s0 ≠ EmptyString.
Proof.
  unfold Path.extname. destruct (Path.from_last_dot s) as [e|] eqn:He; [|by left].
  destruct (String.eqb_spec e s) as [->|Hne]; [by left|].
  destruct (String.eqb s ".."); [by left|].
  destruct (from_last_dot_split s e He) as (s0 & e' & -> & ->).
  right. exists s0, e'. split; [reflexivity|]. split; [reflexivity|].
  intros ->. by apply Hne.
Qed.

Lemma base_of_extname s : base_of s +:+ Path.extname s = s.
Proof.
  unfold base_of. destruct (extname_cases s) as [-> | (s0 & e' & Hs & He & Hs0)].
  - unfold Path.basename. simpl. apply append_empty_r.
  - set (e := Path.extname s) in *. unfold Path.basename.
    assert (String.length e < String.length s)%nat as Hlen.
    { rewrite Hs, length_append. destruct s0; [done|]. simpl. lia. }
    replace (String.length e =? 0)%nat with false by (by rewrite He).
    replace (String.length s <? String.length e)%nat with false
      by (symmetry; apply Nat.ltb_ge; lia).
    rewrite (eqb_length_neq e s) by lia.
    rewrite Hs at 1. rewrite strip_suffix_append. by rewrite <- Hs.
Qed.

End MoreNames.


(** X11: the output path of a [/convert] request is the input path exactly when the
    stored name has the extension [.gif]: ffmpeg is then told to overwrite the
    file it reads. *)
Theorem output_is_input_iff_gif (env : Env) (upload : UploadedFile) :
  outputPath_of env (filename (stored_file env upload)) = path (stored_file env upload)
  ↔ Path.extname (storage_filename env upload) = ".gif".
Proof.
  unfold outputPath_of. cbn [stored_file filename path].
  set (name := storage_filename env upload). split.
  - intros H%join_inj. rewrite <- (base_of_extname name) in H at 2.
    apply append_cancel_l in H. by symmetry.
  - intros H. f_equal. rewrite <- (base_of_extname name) at 2. by rewrite H.
Qed.

(** X12: the names the server makes up hold characters of the class
    [A-Za-z0-9._-] only: the stored name, the output name, the thumbnail name
    and the palette name; none of them holds a double quote. *)
Theorem artifact_names_in_class (env : Env) (upload : UploadedFile) :
  let name := storage_filename env upload in
  Forall (fun n => Str.all in_class n = true ∧ Str.includes n Str.dquote = false)
    [ name;
      base_of name +:+ ".gif";
      "thumb-" +:+ base_of name +:+ ".jpg";
      "palette-" +:+ Str.of_N (now_palette env) +:+ ".png" ].
Proof.
  intros name.
  assert (∀ n, Str.all in_class n = true → Str.includes n Str.dquote = false) as Hq.
  { intros n. induction n as [|c n IH]; [reflexivity|].
    change (Str.all in_class (String c n)) with (in_class c && Str.all in_class n).
    change (Str.includes (String c n) Str.dquote) with
      ((if Ascii.eqb (ascii_of_N 34) c then true else false)
       || Str.includes n Str.dquote).
    intros [Hc Hn]%andb_true_iff. rewrite (IH Hn), orb_false_r.
    destruct (Ascii.eqb_spec (ascii_of_N 34) c) as [<-|]; [discriminate Hc|].
    reflexivity. }
  assert (Str.all in_class name = true) as Hname.
  { unfold name, storage_filename. rewrite !all_append, sanitize_all_in_class.
    rewrite (all_impl _ _ _ digit_in_class (of_N_digits _)). reflexivity. }
  assert (Str.all in_class (base_of name) = true) as Hbase.
  { rewrite <- (base_of_extname name), all_append in Hname.
    by apply andb_true_iff in Hname as [? _]. }
  assert (∀ n, Str.all in_class (Str.of_N n) = true) as Hnum.
  { intros n. apply (all_impl _ _ _ digit_in_class (of_N_digits _)). }
  repeat (apply List.Forall_cons; [split; [|apply Hq]|]);
    rewrite ?all_append, ?Hbase, ?Hnum; try done.
Qed.

(** X13: within one request the palette path and the thumbnail path are shared
    with no other artifact: the palette path differs from the input, output
    and thumbnail paths, and the thumbnail path from the input and output
    paths. *)
Theorem palette_and_thumbnail_paths_are_apart (env : Env) (upload : UploadedFile) :
  let file := stored_file env upload in
  paletteFile_of env ≠ path file ∧
  paletteFile_of env ≠ outputPath_of env (filename file) ∧
  paletteFile_of env ≠ thumbnailPath_of env (filename file) ∧
  thumbnailPath_of env (filename file) ≠ path file ∧
  thumbnailPath_of env (filename file) ≠ outputPath_of env (filename file).
Proof.
  intros file. destruct (artifact_names env upload) as (a & b & c & H).
  unfold artifact_paths in H. injection H as Hin Hout Hth.
  subst file. cbn [stored_file path filename]. rewrite Hin, Hout, Hth.
  unfold paletteFile_of.
  repeat split; intros E; apply join_inj in E;
    first [ discriminate E
          | apply stamped_head in E; discriminate E
          | symmetry in E; apply stamped_head in E; discriminate E ].
Qed.

(** X14: two uploads get the same stored name exactly when they are stored in the
    same millisecond and their original names sanitize to the same string. *)
Theorem stored_names_collide_iff (env1 env2 : Env) (upload1 upload2 : UploadedFile) :
  storage_filename env1 upload1 = storage_filename env2 upload2 ↔
  now_upload env1 = now_upload env2 ∧
  sanitizeFilename (originalname upload1) = sanitizeFilename (originalname upload2).
Proof.
  unfold storage_filename. split.
  - intros H. pose proof (stamped_inj _ _ _ _ H) as Hn. split; [exact Hn|].
    rewrite Hn in H. apply append_cancel_l in H.
    by apply (append_cancel_l "-") in H.
  - by intros [-> ->].
Qed.

(** X15: a name is left as it is by the sanitizer exactly when all its characters
    are in the class [A-Za-z0-9._-]. *)
Theorem sanitize_fixes_exactly_class_names (name : string) :
  sanitizeFilename name = name ↔ Str.all in_class name = true.
Proof.
  unfold sanitizeFilename. induction name as [|c s IH]; [done|]. simpl. split.
  - intros [= Hc Hs]. apply andb_true_iff. split; [|by apply IH].
    rewrite <- Hc. apply sanitize_char_in_class.
  - intros [Hc Hs]%andb_true_iff. f_equal; [by apply sanitize_char_fixed | by apply IH].
Qed.

(** X16: the sanitizer works piecewise: sanitizing a concatenation is concatenating
    the sanitized parts, so a name and its extension are sanitized
    independently. *)
Theorem sanitize_append (s t : string) :
  sanitizeFilename (s +:+ t) = sanitizeFilename s +:+ sanitizeFilename t.
Proof.
  unfold sanitizeFilename. induction s as [|c s IH]; [reflexivity|].
  rewrite !append_cons. simpl. rewrite append_cons. by rewrite IH.
Qed.

(** ** The quality lookup *)

Lemma inherited_lookup (q : string) :
  q ∈ Object_prototype_names → get_preset q = InheritedValue q ∧ q ≠ EmptyString.
Proof.
  unfold Object_prototype_names. intros H.
  repeat (apply elem_of_cons in H as [->|H]; [split; [reflexivity | discriminate]|]).
  by apply elem_of_nil in H.
Qed.

(** X17: a quality that names a property of [Object.prototype] passes the
    validation: the request is not answered with the 400 response, and its
    first launch is the palette command with [undefined] for the frame rate,
    the width and the number of colours. *)
Theorem inherited_quality_is_converted (env : Env) (req : Request)
    (fs : gset string) (file : StoredFile) (q : string) :
  accepted_upload env req = Some file →
  req_quality req = Some q →
  q ∈ Object_prototype_names →
  status_of (fst (serve Convert env req fs)) ≠ Some 400 ∧
  head (launched (snd (serve Convert env req fs))) =
    Some ("ffmpeg -i " +:+ quoted (path file) +:+ " -vf " +:+
          quoted "fps=undefined,scale=undefined:-1:flags=lanczos,palettegen=max_colors=undefined"
          +:+ " -y " +:+ quoted (paletteFile_of env),
          60000).
Proof.
  intros Hacc Hq Hin. destruct (inherited_lookup q Hin) as [Hget Hne].
  assert (quality_or_default (req_quality req) = q) as Hdef.
  { rewrite Hq. unfold quality_or_default.
    destruct (String.eqb_spec q EmptyString); [done | reflexivity]. }
  split.
  - rewrite (serve_convert_response env req fs file Hacc), Hdef, Hget.
    cbn [truthy]. destruct (succeeded _); [destruct (succeeded _)|].
    + unfold send_response. destruct (send_failure _ _ _); discriminate.
    + unfold convert_error_response. destruct (Str.includes _ _); discriminate.
    + unfold convert_error_response. destruct (Str.includes _ _); discriminate.
  - rewrite serve_launched, Hacc. unfold launches. rewrite Hdef, Hget. cbn [truthy].
    assert (stage1 env file q =
            ("ffmpeg -i " +:+ quoted (path file) +:+ " -vf " +:+
             quoted "fps=undefined,scale=undefined:-1:flags=lanczos,palettegen=max_colors=undefined"
             +:+ " -y " +:+ quoted (paletteFile_of env), 60000)) as ->.
    { unfold stage1, paletteCmd. rewrite Hget. unfold quoted. cbn [field interpolate].
      f_equal. by rewrite !append_assoc. }
    by destruct (succeeded _).
Qed.

Lemma inherited_quality_is_converted_witness :
  status_of (fst (serve Convert (Scenario.server Scenario.rejects_input)
                    (Scenario.request Scenario.clip (Some "toString")) ∅)) ≠ Some 400.
Proof.
  pose proof (inherited_quality_is_converted (Scenario.server Scenario.rejects_input)
                (Scenario.request Scenario.clip (Some "toString")) ∅
                (stored_file (Scenario.server Scenario.rejects_input) Scenario.clip)
                "toString" eq_refl eq_refl) as H.
  destruct H as [H _]; [|exact H].
  apply (bool_decide_eq_true_1 _). vm_compute. reflexivity.
Defined.

(** ** More on [cleanupFiles] *)

(** X18: what [cleanupFiles] deletes: a file is in the scratch directory after the
    call exactly when it was there before and either is not among the paths or
    its deletion is refused.  In particular the call creates no file and
    touches no file outside its argument. *)
Theorem cleanup_deletes_exactly (env : Env) (paths : list string) (w : World)
    (p : string) :
  p ∈ files (snd (cleanupFiles env paths w)) ↔
  p ∈ files w ∧ (p ∉ paths ∨ unlink_fails env p = true).
Proof.
  rewrite cleanupFiles_files, elem_of_difference, elem_of_list_to_set,
    list_elem_of_filter.
  split.
  - intros [Hp Hn]. split; [exact Hp|].
    destruct (decide (p ∈ paths)) as [Hin|]; [|by left].
    right. destruct (unlink_fails env p); [reflexivity|]. exfalso. by apply Hn.
  - intros [Hp [Hn | Hf]]; (split; [exact Hp|]); intros [Hf' Hin]; [done | congruence].
Qed.

(** X19: cleaning up two lists of paths one after the other is cleaning up their
    concatenation: same files, same log. *)
Theorem cleanup_of_concatenation (env : Env) (paths1 paths2 : list string) (w : World) :
  cleanupFiles env (paths1 ++ paths2) w =
  cleanupFiles env paths2 (snd (cleanupFiles env paths1 w)).
Proof.
  revert w. induction paths1 as [|p l IH]; intros w; [reflexivity|].
  rewrite <- app_comm_cons, !cleanupFiles_cons. apply IH.
Qed.

Lemma filter_agree (P Q : string → Prop) `{!∀ x, Decision (P x)}
    `{!∀ x, Decision (Q x)} (l : list string) :
  (∀ x, x ∈ l → P x ↔ Q x) → filter P l = filter Q l.
Proof.
  induction l as [|x l IH]; intros Hagree; [reflexivity|].
  rewrite !filter_cons, IH by (intros y Hy; apply Hagree; by right).
  pose proof (Hagree x (list_elem_of_here _ _)) as Hx.
  destruct (decide (P x)), (decide (Q x)); tauto || reflexivity.
Qed.

(** X20: [cleanupFiles] writes one log record for each path it finds in the scratch
    directory, and none for a path that is not there. *)
Theorem cleanup_logs_one_record_per_file (env : Env) (paths : list string) (w : World) :
  NoDup paths →
  length (logs (snd (cleanupFiles env paths w))) =
  (length (logs w) + length (filter (fun p => p ∈ files w) paths))%nat.
Proof.
  intros Hnd. revert w. induction Hnd as [|p l Hp Hnd IH]; intros w.
  - simpl. lia.
  - rewrite cleanupFiles_cons, IH.
    assert (filter (fun q => q ∈ files (after_cleanup_of env p w)) l =
            filter (fun q => q ∈ files w) l) as ->.
    { apply filter_agree. intros q Hq. unfold after_cleanup_of.
      repeat case_match; cbn [files]; [done| |done].
      rewrite elem_of_difference, elem_of_singleton. split; [by intros [? _]|].
      intros Hin. split; [exact Hin|]. by intros ->. }
    unfold after_cleanup_of. destruct (decide (p ∈ files w)) as [Hin|Hout].
    + rewrite filter_cons_True by done. rewrite bool_decide_eq_true_2 by done.
      destruct (unlink_fails env p); cbn [logs]; rewrite length_app; simpl; lia.
    + rewrite filter_cons_False by done. rewrite bool_decide_eq_false_2 by done. lia.
Qed.

Lemma cleanup_logs_one_record_per_file_witness :
  length (logs (snd (cleanupFiles (Scenario.server Scenario.all_succeed)
                       [Scenario.input; Scenario.gif]
                       (init_world {[ Scenario.input ]})))) = 1%nat.
Proof.
  rewrite (cleanup_logs_one_record_per_file (Scenario.server Scenario.all_succeed)
             [Scenario.input; Scenario.gif] (init_world {[ Scenario.input ]})).
  - vm_compute. reflexivity.
  - apply (bool_decide_eq_true_1 _). vm_compute. reflexivity.
Defined.

(** ** Transfers and failures *)

Lemma send_failure_none (env : Env) (filePath : string) (w : World) :
  send_error env = None → filePath ∈ files w → send_failure env filePath w = None.
Proof.
  intros He Hin. unfold send_failure. by rewrite bool_decide_eq_true_2, He.
Qed.


(** X21: when both passes of a [/convert] request succeed, the encoding pass has
    written the output file and the transfer does not fail, the response is
    the output file. *)
Theorem convert_success_sends_gif (env : Env) (req : Request) (fs : gset string)
    (file : StoredFile) :
  let quality := quality_or_default (req_quality req) in
  accepted_upload env req = Some file →
  truthy (get_preset quality) = true →
  succeeded (stage_outcome env (stage1 env file quality)) = true →
  succeeded (stage_outcome env (stage2 env file quality)) = true →
  outputPath_of env (filename file) ∈ written env (stage2 env file quality) →
  send_error env = None →
  fst (serve Convert env req fs) = FileResponse (outputPath_of env (filename file)).
Proof.
  intros quality Hacc Ht H1 H2 Hw He.
  rewrite (serve_convert_response env req fs file Hacc). fold quality.
  rewrite Ht, H1, H2. unfold send_response.
  rewrite send_failure_none; [reflexivity | exact He |].
  unfold world_before_send. cbn [after_log after_exec files].
  unfold written in Hw. fold quality. set_solver.
Qed.

Lemma convert_success_sends_gif_witness :
  fst (serve Convert (Scenario.server Scenario.all_succeed)
         (Scenario.request Scenario.clip (Some "high")) ∅) = FileResponse Scenario.gif.
Proof.
  apply (convert_success_sends_gif (Scenario.server Scenario.all_succeed)
           (Scenario.request Scenario.clip (Some "high")) ∅
           (stored_file (Scenario.server Scenario.all_succeed) Scenario.clip));
    reflexivity.
Defined.

(** X22: when the extraction of a [/thumbnail] request exits with code 0 but the
    thumbnail file is not in the scratch directory (nothing was written, as
    for a video shorter than the seek position), the handler finalizes no
    response; the input file is still released when its deletion is not
    refused. *)
Theorem missing_thumbnail_leaves_no_response (env : Env) (req : Request)
    (fs : gset string) (file : StoredFile) :
  accepted_upload env req = Some file →
  succeeded (stage_outcome env (thumbnail_stage env file)) = true →
  thumbnailPath_of env (filename file) ∉
    fs ∪ {[ path file ]} ∪ written env (thumbnail_stage env file) →
  unlink_fails env (path file) = false →
  fst (serve Thumbnail env req fs) = NoResponse ∧
  (path file ∉ files (snd (serve Thumbnail env req fs))).
Proof.
  intros Hacc Hs Hmiss Hu. split.
  - rewrite (serve_thumbnail_response_gen env req fs file Hacc), Hs.
    unfold send_response, send_failure. rewrite bool_decide_eq_false_2; [reflexivity|].
    cbn [after_exec after_log after_store init_world files].
    unfold written in Hmiss. exact Hmiss.
  - rewrite (thumbnail_final_files env req fs file Hacc).
    unfold releasable. rewrite filter_cons_True by exact Hu. set_solver.
Qed.

Lemma missing_thumbnail_leaves_no_response_witness :
  fst (serve Thumbnail
         (Scenario.server (fun _ _ => (Exit0 EmptyString EmptyString, [])))
         (Scenario.request Scenario.clip None) ∅) = NoResponse.
Proof.
  pose proof (missing_thumbnail_leaves_no_response
                (Scenario.server (fun _ _ => (Exit0 EmptyString EmptyString, [])))
                (Scenario.request Scenario.clip None) ∅
                (stored_file (Scenario.server (fun _ _ => (Exit0 EmptyString EmptyString, [])))
                   Scenario.clip)
                eq_refl eq_refl) as H.
  destruct H as [H _]; [| reflexivity | exact H].
  apply (bool_decide_eq_false_1 _). vm_compute. reflexivity.
Defined.



(** X24: a failed stage is in the server log: the log of the request holds an
    error record of the route with the message and the stack of the error the
    stage raised. *)
Theorem stage_failure_is_logged (route : Route) (env : Env) (req : Request)
    (fs : gset string) (stage : string * N) :
  stage ∈ launched (snd (serve route env req fs)) →
  succeeded (stage_outcome env stage) = false →
  ∃ e, e ∈ logs (snd (serve route env req fs)) ∧
       level e = "error" ∧
       log_message e = match route with
                       | Thumbnail => "Thumbnail generation failed"
                       | Convert => "Video conversion failed"
                       end ∧
       log_error e = Some (exec_error_message (fst stage) (stage_outcome env stage)) ∧
       log_stack e = Some (stack (new_Error (exec_error_message (fst stage)
                                                (stage_outcome env stage)))).
Proof.
  rewrite serve_launched. intros Hin Hs.
  destruct (accepted_upload env req) as [file|] eqn:Hacc; [|by apply elem_of_nil in Hin].
  pose proof (launches_outcomes route env file _ stage Hin Hs) as H.
  rewrite (serve_world_accepted env route req fs file Hacc). unfold handler.
  destruct route.
  - subst stage. rewrite thumbnail_handler_run.
    unfold stage_outcome in Hs. cbn [thumbnail_stage fst snd] in Hs. rewrite Hs.
    rewrite thumbnail_catch_run. cbn [snd].
    match goal with |- context [cleanupFiles env ?l ?w] =>
      destruct (cleanupFiles_logs_grow env l w) as [more ->] end.
    eexists. split; [cbn; apply list_elem_of_further, list_elem_of_here|].
    repeat split.
  - destruct H as [Ht [-> | [H1 ->]]]; rewrite convert_handler_run, Ht.
    + rewrite Hs. rewrite convert_catch_run. cbn [snd].
      match goal with |- context [cleanupFiles env ?l ?w] =>
        destruct (cleanupFiles_logs_grow env l w) as [more ->] end.
      eexists. split; [cbn; apply list_elem_of_further, list_elem_of_here|].
      repeat split.
    + rewrite H1, Hs. rewrite convert_catch_run. cbn [snd].
      match goal with |- context [cleanupFiles env ?l ?w] =>
        destruct (cleanupFiles_logs_grow env l w) as [more ->] end.
      eexists. split; [cbn; apply list_elem_of_further, list_elem_of_here|].
      repeat split.
Qed.

Lemma stage_failure_is_logged_witness :
  ∃ e, e ∈ logs (snd (serve Thumbnail (Scenario.server Scenario.rejects_input)
                       (Scenario.request Scenario.clip None) ∅)) ∧
       level e = "error" ∧ log_message e = "Thumbnail generation failed".
Proof.
  destruct (stage_failure_is_logged Thumbnail (Scenario.server Scenario.rejects_input)
              (Scenario.request Scenario.clip None) ∅
              (thumbnail_stage (Scenario.server Scenario.rejects_input)
                 (stored_file (Scenario.server Scenario.rejects_input) Scenario.clip)))
    as (e & He & Hl & Hm & _).
  - vm_compute. left.
  - reflexivity.
  - exists e. auto.
Defined.

(** X25: when the extraction of a [/thumbnail] request succeeds and has written the
    thumbnail file, and the transfer does not fail, the response is the
    thumbnail file. *)
Theorem thumbnail_success_sends_file (env : Env) (req : Request) (fs : gset string)
    (file : StoredFile) :
  accepted_upload env req = Some file →
  succeeded (stage_outcome env (thumbnail_stage env file)) = true →
  thumbnailPath_of env (filename file) ∈ written env (thumbnail_stage env file) →
  send_error env = None →
  fst (serve Thumbnail env req fs) = FileResponse (thumbnailPath_of env (filename file)).
Proof.
  intros Hacc Hs Hw He.
  rewrite (serve_thumbnail_response_gen env req fs file Hacc), Hs.
  unfold send_response. rewrite send_failure_none; [reflexivity | exact He |].
  cbn [after_log after_exec files]. unfold written in Hw. set_solver.
Qed.

Lemma thumbnail_success_sends_file_witness :
  fst (serve Thumbnail (Scenario.server Scenario2.thumbnail_written)
         (Scenario.request Scenario.clip None) ∅) =
  FileResponse "/usr/src/app/uploads/thumb-1700000000000-my_clip.jpg".
Proof.
  apply (thumbnail_success_sends_file (Scenario.server Scenario2.thumbnail_written)
           (Scenario.request Scenario.clip None) ∅
           (stored_file (Scenario.server Scenario2.thumbnail_written) Scenario.clip));
    reflexivity.
Defined.

(** X26: a file is sent only after success: when the response of a request is a
    file, the upload was accepted, at least one process was launched and every
    launched process exited with code 0. *)
Theorem file_response_needs_success (route : Route) (env : Env) (req : Request)
    (fs : gset string) (sent : string) :
  fst (serve route env req fs) = FileResponse sent →
  launched (snd (serve route env req fs)) ≠ [] ∧
  Forall (fun stage => succeeded (stage_outcome env stage) = true)
         (launched (snd (serve route env req fs))) ∧
  ∃ file, accepted_upload env req = Some file ∧
          sent = match route with
                 | Thumbnail => thumbnailPath_of env (filename file)
                 | Convert => outputPath_of env (filename file)
                 end.
Proof.
  intros Hr. rewrite serve_launched.
  destruct (accepted_upload env req) as [file|] eqn:Hacc.
  - destruct route.
    + rewrite (serve_thumbnail_response_gen env req fs file Hacc) in Hr.
      unfold launches.
      destruct (succeeded (stage_outcome env (thumbnail_stage env file))) eqn:Hs;
        [|discriminate Hr].
      unfold send_response in Hr. destruct (send_failure _ _ _); [discriminate Hr|].
      injection Hr as <-. split; [done|]. split; [by repeat constructor | eauto].
    + rewrite (serve_convert_response env req fs file Hacc) in Hr. unfold launches.
      destruct (truthy _); [|discriminate Hr].
      destruct (succeeded (stage_outcome env (stage1 env file _))) eqn:H1.
      * destruct (succeeded (stage_outcome env (stage2 env file _))) eqn:H2.
        -- unfold send_response in Hr. destruct (send_failure _ _ _); [discriminate Hr|].
           injection Hr as <-. split; [done|]. split; [by repeat constructor | eauto].
        -- unfold convert_error_response in Hr.
           destruct (Str.includes _ _); discriminate Hr.
      * unfold convert_error_response in Hr.
        destruct (Str.includes _ _); discriminate Hr.
  - exfalso. unfold accepted_upload in Hacc. unfold serve, upload_single, fileFilter in Hr.
    destruct (req_file req) as [upload|].
    + destruct (Str.mem (mimetype upload) ALLOWED_MIME_TYPES).
      * destruct (MAX_FILE_SIZE <? file_size upload); [|discriminate Hacc].
        discriminate Hr.
      * discriminate Hr.
    + destruct route; discriminate Hr.
Qed.

Lemma file_response_needs_success_witness :
  launched (snd (serve Convert (Scenario.server Scenario.all_succeed)
                   (Scenario.request Scenario.clip None) ∅)) ≠ [].
Proof.
  destruct (file_response_needs_success Convert (Scenario.server Scenario.all_succeed)
              (Scenario.request Scenario.clip None) ∅ Scenario.gif) as [H _].
  - vm_compute. reflexivity.
  - exact H.
Defined.

(** X27: status 408 is answered only by [/convert], and only after a launched
    process failed with an error message that contains [timeout]. *)
Theorem timeout_status_needs_failed_stage (route : Route) (env : Env)
    (req : Request) (fs : gset string) :
  status_of (fst (serve route env req fs)) = Some 408 →
  route = Convert ∧
  ∃ stage, stage ∈ launched (snd (serve route env req fs)) ∧
           succeeded (stage_outcome env stage) = false ∧
           Str.includes (exec_error_message (fst stage) (stage_outcome env stage))
                        "timeout" = true.
Proof.
  intros Hr.
  destruct (accepted_upload env req) as [file|] eqn:Hacc.
  - destruct route.
    + rewrite (serve_thumbnail_response_gen env req fs file Hacc) in Hr.
      destruct (succeeded _); [|discriminate Hr].
      unfold send_response in Hr. destruct (send_failure _ _ _); discriminate Hr.
    + split; [reflexivity|]. rewrite serve_launched, Hacc. unfold launches.
      rewrite (serve_convert_response env req fs file Hacc) in Hr.
      destruct (truthy _); [|discriminate Hr].
      destruct (succeeded (stage_outcome env (stage1 env file _))) eqn:H1.
      * destruct (succeeded (stage_outcome env (stage2 env file _))) eqn:H2.
        -- unfold send_response in Hr. destruct (send_failure _ _ _); discriminate Hr.
        -- exists (stage2 env file (quality_or_default (req_quality req))).
           split; [apply list_elem_of_further, list_elem_of_here|]. split; [exact H2|].
           unfold convert_error_response, stage_error in Hr. cbn [message new_Error] in Hr.
           unfold stage_outcome.
           destruct (Str.includes _ _); [reflexivity | discriminate Hr].
      * exists (stage1 env file (quality_or_default (req_quality req))).
        split; [apply list_elem_of_here|]. split; [exact H1|].
        unfold convert_error_response, stage_error in Hr. cbn [message new_Error] in Hr.
        unfold stage_outcome.
        destruct (Str.includes _ _); [reflexivity | discriminate Hr].
  - exfalso. unfold accepted_upload in Hacc.
    unfold serve, upload_single, fileFilter in Hr.
    destruct (req_file req) as [upload|].
    + destruct (Str.mem (mimetype upload) ALLOWED_MIME_TYPES).
      * destruct (MAX_FILE_SIZE <? file_size upload); [|discriminate Hacc].
        discriminate Hr.
      * discriminate Hr.
    + destruct route; discriminate Hr.
Qed.

Lemma timeout_status_needs_failed_stage_witness :
  ∃ stage,
    stage ∈ launched (snd (serve Convert (Scenario.server Scenario.never_ends)
                             (Scenario.request Scenario.clip None) ∅)) ∧
    succeeded (stage_outcome (Scenario.server Scenario.never_ends) stage) = false.
Proof.
  destruct (timeout_status_needs_failed_stage Convert
              (Scenario.server Scenario.never_ends)
              (Scenario.request Scenario.clip None) ∅)
    as [_ (stage & Hin & Hs & _)].
  - vm_compute. reflexivity.
  - exists stage. auto.
Defined.
